(** * Aggregatable reports: decoding and protocol dispatch

    A shallow embedding of [shared/reporttypes.go] (package [reporttypes])
    together with the library routines it calls: [encoding/base64]
    ([StdEncoding]), [strconv.Itoa], and the protobuf wire encoding of
    [pb.AggregatablePayload] ([proto.Marshal] / [proto.Unmarshal]).

    Conventions.
    - A Go [string] is a [string] (a sequence of 8-bit characters); a
      [[]byte] is a [list byte].  A nil slice and an empty slice are both [[]].
    - A Go [int]/[uint] is a [Z]; no quantity below leaves the 64-bit range
      for inputs that fit in memory.
    - A Go function returning [(T, error)] returns a pair [T * option error],
      [None] being the nil error.  A map result that may be the nil map is an
      [option (gmap string string)], [None] being the nil map.
    - A run-time panic is an explicit [Panics] outcome.
    - [AggregationServicePayloads] has Go type [[]*AggregationServicePayload]:
      an entry is an [option], [None] being the nil pointer (what a JSON
      [null] in the payload array is decoded to), and reading a field through
      it panics. *)

From Stdlib Require Import ZArith List Lia String Ascii Strings.Byte.
From Stdlib Require Import DecimalString DecimalZ DecimalPos.
From stdpp Require Import gmap strings list fin_maps.
Import ListNotations.

Local Open Scope Z_scope.

(** ** Errors and outcomes *)

(** The error values that can flow out of this package.  [Errorf] is an error
    built by [fmt.Errorf] (it carries the formatted message);
    [CorruptInputError] is [base64.CorruptInputError] (it carries the input
    offset); the remaining ones are the errors of the protobuf runtime. *)
Inductive error : Type :=
| Errorf (msg : string)
| CorruptInputError (offset : Z)
| errInvalidUTF8
| errDecode.

(** Outcome of a Go expression that may panic at run time. *)
Inductive outcome (A : Type) : Type :=
| Returns (a : A)
| Panics (msg : string).
Arguments Returns {A} a.
Arguments Panics {A} msg.

(** The messages of the two run-time panics that this package can raise:
    the index expression [s[0]] on an empty slice, and a field read through
    a nil pointer. *)
Definition indexOutOfRange : string :=
  "runtime error: index out of range [0] with length 0".
Definition nilDereference : string :=
  "runtime error: invalid memory address or nil pointer dereference".

(** ** Bytes *)

Definition Z_of_byte (b : byte) : Z := Z.of_N (Byte.to_N b).

(** The conversion [byte(v)] of an unsigned integer: the low eight bits. *)
Definition byte_of_Z (v : Z) : byte :=
  match Byte.of_N (Z.to_N (v mod 256)) with
  | Some b => b
  | None => x00
  end.

(** ** encoding/base64, StdEncoding *)

Module base64.

(** [encodeStd]: the standard alphabet. *)
Definition encodeStd : list byte :=
  list_byte_of_string
    "ABCDEFGHIJKLMNOPQRSTUVWXYZabcdefghijklmnopqrstuvwxyz0123456789+/".

(** [StdPadding] is the character '='. *)
Definition padChar : byte := x3d.

(** [enc.encode[v]] *)
Definition encode (v : Z) : byte := nth (Z.to_nat v) encodeStd x00.

Fixpoint index_from (i : Z) (c : byte) (l : list byte) : option Z :=
  match l with
  | [] => None
  | x :: l' => if Byte.eqb x c then Some i else index_from (i + 1) c l'
  end.

(** [enc.decodeMap[c]]: the position of [c] in the alphabet, [0xff] for a
    character outside of it. *)
Definition decodeMap (c : byte) : Z :=
  match index_from 0 c encodeStd with
  | Some i => i
  | None => 255
  end.

(** [Encode]: three source bytes give four characters; a final block of one or
    two bytes is padded. *)
Fixpoint Encode (src : list byte) : list byte :=
  match src with
  | [] => []
  | [b0] =>
      let val := Z.shiftl (Z_of_byte b0) 16 in
      [encode (Z.land (Z.shiftr val 18) 63);
       encode (Z.land (Z.shiftr val 12) 63);
       padChar; padChar]
  | [b0; b1] =>
      let val := Z.lor (Z.shiftl (Z_of_byte b0) 16) (Z.shiftl (Z_of_byte b1) 8) in
      [encode (Z.land (Z.shiftr val 18) 63);
       encode (Z.land (Z.shiftr val 12) 63);
       encode (Z.land (Z.shiftr val 6) 63);
       padChar]
  | b0 :: b1 :: b2 :: rest =>
      let val := Z.lor (Z.lor (Z.shiftl (Z_of_byte b0) 16)
                              (Z.shiftl (Z_of_byte b1) 8))
                       (Z_of_byte b2) in
      encode (Z.land (Z.shiftr val 18) 63)
      :: encode (Z.land (Z.shiftr val 12) 63)
      :: encode (Z.land (Z.shiftr val 6) 63)
      :: encode (Z.land val 63)
      :: Encode rest
  end.

Definition EncodeToString (src : list byte) : string :=
  string_of_list_byte (Encode src).

Definition isNewline (c : byte) : bool := Byte.eqb c x0a || Byte.eqb c x0d.

(** [for si < len(src) && (src[si] == '\n' || src[si] == '\r') { si++ }] *)
Fixpoint skipNewlines (src : list byte) (si : Z) : list byte * Z :=
  match src with
  | c :: src' => if isNewline c then skipNewlines src' (si + 1) else (src, si)
  | [] => (src, si)
  end.

(** The tail of [decodeQuantum]: the 6-bit values gathered in [dbuf] (those
    not read are zero) are packed into [len dbuf - 1] bytes. *)
Definition quantumBytes (dbuf : list Z) : list byte :=
  let d i := nth i dbuf 0 in
  let val := Z.lor (Z.lor (Z.lor (Z.shiftl (d 0%nat) 18) (Z.shiftl (d 1%nat) 12))
                          (Z.shiftl (d 2%nat) 6))
                   (d 3%nat) in
  firstn (length dbuf - 1)
         [byte_of_Z (Z.shiftr val 16); byte_of_Z (Z.shiftr val 8); byte_of_Z val].

(** After the padding of a quantum: newlines are skipped, anything else is
    trailing garbage.  The bytes of the quantum are still written. *)
Definition afterPadding (src : list byte) (si : Z) (dbuf : list Z)
  : list byte * option error :=
  let '(src', si') := skipNewlines src si in
  (quantumBytes dbuf,
   match src' with
   | [] => None
   | _ :: _ => Some (CorruptInputError si')
   end).

(** [Decode]: the loop over [decodeQuantum].  [src] is what is left of the
    input, [si] the offset of its first character, [dbuf] the 6-bit values of
    the quantum being read ([j = len dbuf]).  The result is the bytes written
    and the error, as [DecodeString] returns them. *)
Fixpoint decodeLoop (src : list byte) (si : Z) (dbuf : list Z)
  : list byte * option error :=
  match src with
  | [] =>
      match dbuf with
      | [] => ([], None)
      | _ :: _ => ([], Some (CorruptInputError (si - Z.of_nat (length dbuf))))
      end
  | c :: src' =>
      let si := si + 1 in
      let out := decodeMap c in
      if negb (out =? 255) then
        let dbuf := dbuf ++ [out] in
        if (length dbuf =? 4)%nat then
          let '(dst, err) := decodeLoop src' si [] in
          (quantumBytes dbuf ++ dst, err)
        else decodeLoop src' si dbuf
      else if isNewline c then decodeLoop src' si dbuf
      else if negb (Byte.eqb c padChar) then
        ([], Some (CorruptInputError (si - 1)))
      else
        match length dbuf with
        | 0%nat | 1%nat => ([], Some (CorruptInputError (si - 1)))
        | 2%nat =>
            let '(src2, si2) := skipNewlines src' si in
            match src2 with
            | [] => ([], Some (CorruptInputError si2))
            | c2 :: src3 =>
                if negb (Byte.eqb c2 padChar) then
                  ([], Some (CorruptInputError (si2 - 1)))
                else afterPadding src3 (si2 + 1) dbuf
            end
        | _ => afterPadding src' si dbuf
        end
  end.

Definition DecodeString (s : string) : list byte * option error :=
  decodeLoop (list_byte_of_string s) 0 [].

End base64.

(** ** strconv *)

Module strconv.

(** [Itoa]: the decimal form of an [int], with a leading '-' when negative. *)
Definition Itoa (i : Z) : string := NilZero.string_of_int (Z.to_int i).

End strconv.

(** ** unicode/utf8 *)

Module utf8.

Definition inRange (c : byte) (lo hi : Z) : bool :=
  (lo <=? Z_of_byte c) && (Z_of_byte c <=? hi).

(** The table [first] joined with [acceptRanges]: for a leading byte of a
    multi-byte sequence, the size of the sequence and the range accepted for
    its second byte; [None] for an illegal leading byte ([xx]). *)
Definition first (pi : byte) : option (Z * Z * Z) :=
  let x := Z_of_byte pi in
  if (0xC2 <=? x) && (x <=? 0xDF) then Some (2, 0x80, 0xBF)
  else if x =? 0xE0 then Some (3, 0xA0, 0xBF)
  else if (0xE1 <=? x) && (x <=? 0xEC) then Some (3, 0x80, 0xBF)
  else if x =? 0xED then Some (3, 0x80, 0x9F)
  else if (0xEE <=? x) && (x <=? 0xEF) then Some (3, 0x80, 0xBF)
  else if x =? 0xF0 then Some (4, 0x90, 0xBF)
  else if (0xF1 <=? x) && (x <=? 0xF3) then Some (4, 0x80, 0xBF)
  else if x =? 0xF4 then Some (4, 0x80, 0x8F)
  else None.

(** Lowest and highest continuation byte. *)
Definition locb : Z := 0x80.
Definition hicb : Z := 0xBF.

(** [Valid]: whether [p] consists entirely of valid UTF-8 encoded runes. *)
Fixpoint Valid (p : list byte) : bool :=
  match p with
  | [] => true
  | pi :: p1 =>
      if Z_of_byte pi <? 0x80 then Valid p1
      else
        match first pi with
        | None => false
        | Some (size, lo, hi) =>
            match p1 with
            | [] => false
            | c1 :: p2 =>
                if negb (inRange c1 lo hi) then false
                else if size =? 2 then Valid p2
                else
                  match p2 with
                  | [] => false
                  | c2 :: p3 =>
                      if negb (inRange c2 locb hicb) then false
                      else if size =? 3 then Valid p3
                      else
                        match p3 with
                        | [] => false
                        | c3 :: p4 =>
                            if negb (inRange c3 locb hicb) then false
                            else Valid p4
                        end
                  end
            end
        end
  end.

Definition ValidString (s : string) : bool := Valid (list_byte_of_string s).

End utf8.

(** ** google.golang.org/protobuf/encoding/protowire *)

Module protowire.

Definition VarintType : Z := 0.
Definition Fixed64Type : Z := 1.
Definition BytesType : Z := 2.
Definition StartGroupType : Z := 3.
Definition EndGroupType : Z := 4.
Definition Fixed32Type : Z := 5.

Definition MinValidNumber : Z := 1.
Definition MaxValidNumber : Z := 2 ^ 29 - 1.
Definition DefaultRecursionLimit : Z := 10000.

(** [AppendVarint] for a [uint64] [v]: seven bits per byte, least significant
    group first, the high bit of a byte telling that more follow; [n] is the
    number of bytes that may still follow the next one. *)
Fixpoint appendVarintFrom (n : nat) (v : Z) : list byte :=
  match n with
  | O => [byte_of_Z v]
  | S n' =>
      if v <? 0x80 then [byte_of_Z v]
      else byte_of_Z (Z.lor (Z.land v 0x7f) 0x80)
             :: appendVarintFrom n' (Z.shiftr v 7)
  end.

Definition AppendVarint (v : Z) : list byte := appendVarintFrom 9 v.

(** [EncodeTag] and [AppendTag]. *)
Definition EncodeTag (num typ : Z) : Z := Z.lor (Z.shiftl num 3) (Z.land typ 7).
Definition AppendTag (num typ : Z) : list byte := AppendVarint (EncodeTag num typ).

(** [AppendBytes] / [AppendString]: the length as a varint, then the bytes. *)
Definition AppendBytes (v : list byte) : list byte :=
  AppendVarint (Z.of_nat (length v)) ++ v.

(** [ConsumeVarint]: the value and the bytes after it; [None] when the input
    is truncated or the value overflows 64 bits (a tenth byte above 1).  [n]
    is the number of bytes that may still follow the next one and [shift] the
    position of its seven bits. *)
Fixpoint consumeVarintFrom (n : nat) (shift : Z) (b : list byte)
  : option (Z * list byte) :=
  match b with
  | [] => None
  | c :: b' =>
      let y := Z_of_byte c in
      match n with
      | O => if y <? 2 then Some (Z.shiftl y shift, b') else None
      | S n' =>
          if y <? 0x80 then Some (Z.shiftl y shift, b')
          else
            match consumeVarintFrom n' (shift + 7) b' with
            | Some (v, rest) => Some (Z.shiftl (y - 0x80) shift + v, rest)
            | None => None
            end
      end
  end.

Definition ConsumeVarint (b : list byte) : option (Z * list byte) :=
  consumeVarintFrom 9 0 b.

(** [ConsumeBytes]: a varint length [m], then [m] bytes. *)
Definition ConsumeBytes (b : list byte) : option (list byte * list byte) :=
  match ConsumeVarint b with
  | None => None
  | Some (m, b') =>
      if Z.of_nat (length b') <? m then None
      else Some (firstn (Z.to_nat m) b', skipn (Z.to_nat m) b')
  end.

Definition consumeFixed (size : nat) (b : list byte) : option (list byte) :=
  if (length b <? size)%nat then None else Some (skipn size b).

(** [ConsumeTag]: field number and wire type. *)
Definition ConsumeTag (b : list byte) : option (Z * Z * list byte) :=
  match ConsumeVarint b with
  | None => None
  | Some (v, b') =>
      let num := Z.shiftr v 3 in
      if (2 ^ 31 - 1 <? num) || (num <? MinValidNumber) then None
      else Some (num, Z.land v 7, b')
  end.

(** The body of a group whose start tag has been read: fields are skipped up
    to the matching end tag.  [stack] holds the numbers of the groups that are
    open, innermost first, and stands for the recursion of
    [consumeFieldValueD]; every round consumes at least the byte of a tag, so
    [fuel] no smaller than [len b] is never exhausted before the input is. *)
Fixpoint consumeGroup (fuel : nat) (stack : list Z) (b : list byte)
  : option (list byte) :=
  match fuel with
  | O => None
  | S fuel' =>
      match ConsumeTag b with
      | None => None
      | Some (num2, typ2, b') =>
          if typ2 =? EndGroupType then
            match stack with
            | [] => None
            | num :: stack' =>
                if negb (num =? num2) then None
                else
                  match stack' with
                  | [] => Some b'
                  | _ :: _ => consumeGroup fuel' stack' b'
                  end
            end
          else if typ2 =? StartGroupType then
            if DefaultRecursionLimit <? Z.of_nat (length stack) then None
            else consumeGroup fuel' (num2 :: stack) b'
          else if typ2 =? VarintType then
            match ConsumeVarint b' with
            | None => None
            | Some (_, b'') => consumeGroup fuel' stack b''
            end
          else if typ2 =? Fixed32Type then
            match consumeFixed 4 b' with
            | None => None
            | Some b'' => consumeGroup fuel' stack b''
            end
          else if typ2 =? Fixed64Type then
            match consumeFixed 8 b' with
            | None => None
            | Some b'' => consumeGroup fuel' stack b''
            end
          else if typ2 =? BytesType then
            match ConsumeBytes b' with
            | None => None
            | Some (_, b'') => consumeGroup fuel' stack b''
            end
          else None
      end
  end.

(** [ConsumeFieldValue]: the bytes after the value of a field whose tag has
    been read; [None] when the value is malformed. *)
Definition ConsumeFieldValue (num typ : Z) (b : list byte) : option (list byte) :=
  if typ =? VarintType then
    match ConsumeVarint b with
    | None => None
    | Some (_, b') => Some b'
    end
  else if typ =? Fixed32Type then consumeFixed 4 b
  else if typ =? Fixed64Type then consumeFixed 8 b
  else if typ =? BytesType then
    match ConsumeBytes b with
    | None => None
    | Some (_, b') => Some b'
    end
  else if typ =? StartGroupType then consumeGroup (length b) [num] b
  else None.

End protowire.

(** ** google.golang.org/protobuf/proto *)

Module proto.

(** What the decoder of one field reports: the message with the field stored
    and the bytes after it, an error, or [errUnknown] (the field is not one
    of the message's, or has another wire type, and is skipped). *)
Inductive fieldOutcome (M : Type) : Type :=
| FieldOk (m : M) (rest : list byte)
| FieldErr (e : error)
| FieldUnknown.
Arguments FieldOk {M} m rest.
Arguments FieldErr {M} e.
Arguments FieldUnknown {M}.

(** [unmarshalPointer]: the loop [for len(b) > 0] over the fields of a
    message.  [coder num wtyp b m] decodes the value of field [num] out of
    [b] into [m].  Every round consumes at least the byte of a tag, so [fuel]
    no smaller than [len b] is never exhausted before the input is. *)
Fixpoint unmarshalPointer {M : Type}
    (coder : Z -> Z -> list byte -> M -> fieldOutcome M)
    (fuel : nat) (b : list byte) (m : M) : M * option error :=
  match b with
  | [] => (m, None)
  | _ :: _ =>
      match fuel with
      | O => (m, Some errDecode)
      | S fuel' =>
          match protowire.ConsumeVarint b with
          | None => (m, Some errDecode)
          | Some (tag, b1) =>
              let num := Z.shiftr tag 3 in
              let wtyp := Z.land tag 7 in
              if (num <? protowire.MinValidNumber)
                 || (protowire.MaxValidNumber <? num)
              then (m, Some errDecode)
              else if wtyp =? protowire.EndGroupType then (m, Some errDecode)
              else
                match coder num wtyp b1 m with
                | FieldOk m' rest => unmarshalPointer coder fuel' rest m'
                | FieldErr e => (m, Some e)
                | FieldUnknown =>
                    match protowire.ConsumeFieldValue num wtyp b1 with
                    | None => (m, Some errDecode)
                    | Some rest => unmarshalPointer coder fuel' rest m
                    end
                end
          end
      end
  end.

(** A generated message type: its zero value, the encoder of its fields (in
    field-number order) and the decoder of one field. *)
Class Message (M : Type) : Type := {
  zero : M;
  marshalAppendPointer : M -> list byte * option error;
  unmarshalField : Z -> Z -> list byte -> M -> fieldOutcome M
}.

(** [Marshal]: the wire encoding of [m].  On an error the buffer is dropped by
    every caller in this package; the model returns it empty. *)
Definition Marshal {M : Type} `{Message M} (m : M) : list byte * option error :=
  let '(b, err) := marshalAppendPointer m in
  match err with
  | Some e => ([], Some e)
  | None => (b, None)
  end.

(** [Unmarshal]: [b] parsed into a message that was reset beforehand. *)
Definition Unmarshal {M : Type} `{Message M} (b : list byte) : M * option error :=
  unmarshalPointer unmarshalField (length b) b zero.

(** Field coders of the generated code. *)

(** A proto3 [bytes] field: left out when empty. *)
Definition appendBytesNoZero (wiretag : Z) (v : list byte) : list byte :=
  match v with
  | [] => []
  | _ :: _ => protowire.AppendVarint wiretag ++ protowire.AppendBytes v
  end.

(** A proto3 [string] field: left out when empty, an error when it is not
    valid UTF-8. *)
Definition appendStringNoZeroValidateUTF8 (wiretag : Z) (v : string)
  : list byte * option error :=
  match v with
  | EmptyString => ([], None)
  | String _ _ =>
      let b := protowire.AppendVarint wiretag
               ++ protowire.AppendBytes (list_byte_of_string v) in
      if negb (utf8.ValidString v) then (b, Some errInvalidUTF8) else (b, None)
  end.

(** A message field that is set: the size of the message, then the message. *)
Definition appendMessageInfo (wiretag : Z) (sub : list byte * option error)
  : list byte * option error :=
  let '(body, err) := sub in
  (protowire.AppendVarint wiretag
   ++ protowire.AppendVarint (Z.of_nat (length body)) ++ body, err).

Definition consumeBytesNoZero {M : Type} (b : list byte) (wtyp : Z)
    (set : list byte -> M) : fieldOutcome M :=
  if negb (wtyp =? protowire.BytesType) then FieldUnknown
  else
    match protowire.ConsumeBytes b with
    | None => FieldErr errDecode
    | Some (v, rest) => FieldOk (set v) rest
    end.

Definition consumeStringValidateUTF8 {M : Type} (b : list byte) (wtyp : Z)
    (set : string -> M) : fieldOutcome M :=
  if negb (wtyp =? protowire.BytesType) then FieldUnknown
  else
    match protowire.ConsumeBytes b with
    | None => FieldErr errDecode
    | Some (v, rest) =>
        if negb (utf8.Valid v) then FieldErr errInvalidUTF8
        else FieldOk (set (string_of_list_byte v)) rest
    end.

(** A message field: the value is parsed into the message already stored in
    the field, or into a new one when the field is nil. *)
Definition consumeMessageInfo {M S : Type} `{Message S} (b : list byte)
    (wtyp : Z) (cur : option S) (set : S -> M) : fieldOutcome M :=
  if negb (wtyp =? protowire.BytesType) then FieldUnknown
  else
    match protowire.ConsumeBytes b with
    | None => FieldErr errDecode
    | Some (v, rest) =>
        let sub := match cur with Some s => s | None => zero end in
        match unmarshalPointer unmarshalField (length v) v sub with
        | (_, Some e) => FieldErr e
        | (s, None) => FieldOk (set s) rest
        end
    end.

End proto.

(** ** encryption/crypto_go_proto *)

Module pb.

(** Modelled from the spec: the generated Go types of
    [encryption/crypto.proto], which is not among the sources.  The outbound
    wire schema is a record with three fields: ciphertext bytes, shared-info
    string (verbatim), key identifier string.  The Go field names
    [Payload] (a pointer to a [StandardCiphertext] holding [Data]),
    [SharedInfo] and [KeyId] are those of the composite literal in
    [ExtractPayloadsFromAggregatableReport]; the fields are numbered 1, 2, 3
    in that order and [Data] is field 1 of its message.  The bytes of unknown
    fields that a generated struct retains are not represented: no message
    built or marshalled by this package has any. *)
Record StandardCiphertext : Type := { Data : list byte }.

Record AggregatablePayload : Type := {
  Payload : option StandardCiphertext;
  SharedInfo : string;
  KeyId : string
}.

Definition wiretag (num : Z) : Z := protowire.EncodeTag num protowire.BytesType.

(** [math.MaxInt]: the length of a Go string or slice is an [int]. *)
Definition MaxInt : Z := 2 ^ 63 - 1.

(** A well-formed record: its strings are valid UTF-8, as the proto3 schema
    requires of [string] fields, and its fields have lengths that a Go value
    can have. *)
Definition wellFormed (m : AggregatablePayload) : bool :=
  utf8.ValidString (SharedInfo m) && utf8.ValidString (KeyId m)
  && (Z.of_nat (String.length (SharedInfo m)) <=? MaxInt)
  && (Z.of_nat (String.length (KeyId m)) <=? MaxInt)
  && match Payload m with
     | Some sc => Z.of_nat (length (Data sc)) <=? MaxInt
     | None => true
     end.

#[global] Instance StandardCiphertext_Message : proto.Message StandardCiphertext := {
  zero := {| Data := [] |};
  marshalAppendPointer m := (proto.appendBytesNoZero (wiretag 1) (Data m), None);
  unmarshalField num wtyp b m :=
    if num =? 1 then
      proto.consumeBytesNoZero b wtyp (fun v => {| Data := v |})
    else proto.FieldUnknown
}.

#[global] Instance AggregatablePayload_Message : proto.Message AggregatablePayload := {
  zero := {| Payload := None; SharedInfo := ""; KeyId := "" |};
  marshalAppendPointer m :=
    let '(b1, err) :=
      match Payload m with
      | None => ([], None)
      | Some sc =>
          proto.appendMessageInfo (wiretag 1) (proto.marshalAppendPointer sc)
      end in
    match err with
    | Some e => (b1, Some e)
    | None =>
        let '(b2, err) :=
          proto.appendStringNoZeroValidateUTF8 (wiretag 2) (SharedInfo m) in
        match err with
        | Some e => (b1 ++ b2, Some e)
        | None =>
            let '(b3, err) :=
              proto.appendStringNoZeroValidateUTF8 (wiretag 3) (KeyId m) in
            (b1 ++ b2 ++ b3, err)
        end
    end;
  unmarshalField num wtyp b m :=
    if num =? 1 then
      proto.consumeMessageInfo b wtyp (Payload m)
        (fun sc => {| Payload := Some sc; SharedInfo := SharedInfo m;
                      KeyId := KeyId m |})
    else if num =? 2 then
      proto.consumeStringValidateUTF8 b wtyp
        (fun s => {| Payload := Payload m; SharedInfo := s; KeyId := KeyId m |})
    else if num =? 3 then
      proto.consumeStringValidateUTF8 b wtyp
        (fun s => {| Payload := Payload m; SharedInfo := SharedInfo m;
                     KeyId := s |})
    else proto.FieldUnknown
}.

End pb.

(** ** Package reporttypes *)

Module reporttypes.

(** Protocols of the report. *)
Definition onepartyProtocol : string := "one-party".
Definition mpcProtocol : string := "mpc".

(** [AggregationServicePayload] contains the payload for a specific
    aggregation server. *)
Record AggregationServicePayload : Type := {
  Payload : string;
  KeyID : string;
  DebugCleartextPayload : string
}.

(** [AggregatableReport] contains the information generated by the browser
    from a key-value pair.  The payload entries are pointers. *)
Record AggregatableReport : Type := {
  SourceSite : string;
  AttributionDestination : string;
  SharedInfo : string;
  AggregationServicePayloads : list (option AggregationServicePayload);
  SourceDebugKey : string;
  TriggerDebugKey : string
}.

(** [len(r.AggregationServicePayloads)] *)
Definition payloadCount (r : AggregatableReport) : Z :=
  Z.of_nat (length (AggregationServicePayloads r)).

(** [GetProtocol] gets the protocol which the report uses. *)
Definition GetProtocol (r : AggregatableReport) : string * option error :=
  let n := payloadCount r in
  if n =? 1 then (onepartyProtocol, None)
  else if n =? 2 then (mpcProtocol, None)
  else ("", Some (Errorf ("expect 1 or 2 payloads, got " ++ strconv.Itoa n))).

(** [Validate] checks if a report is valid. *)
Definition Validate (r : AggregatableReport) : option error :=
  let got := payloadCount r in
  if negb (got =? 1) && negb (got =? 2) then
    Some (Errorf ("expected one or two payloads, got " ++ strconv.Itoa got))
  else None.

(** [IsDebugReport] checks if a report has a clear text debug payload.  The
    index expression panics on an empty slice, and the field read panics
    when the entry at index 0 is nil. *)
Definition IsDebugReport (r : AggregatableReport) : outcome bool :=
  match AggregationServicePayloads r with
  | [] => Panics indexOutOfRange
  | None :: _ => Panics nilDereference
  | Some p :: _ => Returns (negb (String.eqb (DebugCleartextPayload p) ""))
  end.

(** The body of the loop of [ExtractPayloadsFromAggregatableReport] for one
    payload that is not nil: the decoded data, the error of the decoder, and
    the key id. *)
Definition selectPayload (useCleartext : bool) (payload : AggregationServicePayload)
  : list byte * option error * string :=
  if useCleartext then
    let '(data, err) := base64.DecodeString (DebugCleartextPayload payload) in
    (data, err, ""%string)
  else
    let '(data, err) := base64.DecodeString (Payload payload) in
    (data, err, KeyID payload).

(** The loop of [ExtractPayloadsFromAggregatableReport].  Either branch
    starts by reading a field of the entry, which panics when the entry is
    nil. *)
Fixpoint extractLoop (sharedInfo : string) (useCleartext : bool)
    (payloads : list (option AggregationServicePayload))
    (output : list pb.AggregatablePayload)
  : outcome (list pb.AggregatablePayload * option error) :=
  match payloads with
  | [] => Returns (output, None)
  | None :: _ => Panics nilDereference
  | Some payload :: rest =>
      let '(data, err, keyID) := selectPayload useCleartext payload in
      match err with
      | Some e => Returns ([], Some e)
      | None =>
          extractLoop sharedInfo useCleartext rest
            (output ++ [ {| pb.Payload := Some {| pb.Data := data |};
                            pb.SharedInfo := sharedInfo;
                            pb.KeyId := keyID |} ])
      end
  end.

(** [ExtractPayloadsFromAggregatableReport] extracts records to be processed
    by the aggregators. *)
Definition ExtractPayloadsFromAggregatableReport (r : AggregatableReport)
    (useCleartext : bool)
  : outcome (list pb.AggregatablePayload * option error) :=
  extractLoop (SharedInfo r) useCleartext (AggregationServicePayloads r) [].

(** [SerializeAggregatablePayload] serializes the AggregatablePayload into a
    string. *)
Definition SerializeAggregatablePayload (encrypted : pb.AggregatablePayload)
  : string * option error :=
  let '(bEncrypted, err) := proto.Marshal encrypted in
  match err with
  | Some e => (""%string, Some e)
  | None => (base64.EncodeToString bEncrypted, None)
  end.

(** [DeserializeAggregatablePayload] deserializes the AggregatablePayload from
    a string. *)
Definition DeserializeAggregatablePayload (line : string)
  : option pb.AggregatablePayload * option error :=
  let '(bsc, err) := base64.DecodeString line in
  match err with
  | Some e => (None, Some e)
  | None =>
      let '(payload, err) := proto.Unmarshal bsc in
      match err with
      | Some e => (None, Some e)
      | None => (Some payload, None)
      end
  end.

(** The loop of [convertReport]: [index] is the position of the first record
    of [payloads], [output] the map built so far.  The records are those that
    the extraction has made, none of which is nil. *)
Fixpoint convertLoop (index : Z) (payloads : list pb.AggregatablePayload)
    (output : gmap string string) : option (gmap string string) * option error :=
  match payloads with
  | [] => (Some output, None)
  | record :: rest =>
      let '(payload, err) := SerializeAggregatablePayload record in
      match err with
      | Some e => (None, Some e)
      | None => convertLoop (index + 1) rest (<[strconv.Itoa index := payload]> output)
      end
  end.

(** [convertReport]: a panic of the extraction goes through. *)
Definition convertReport (r : AggregatableReport) (useCleartext : bool)
  : outcome (option (gmap string string) * option error) :=
  match ExtractPayloadsFromAggregatableReport r useCleartext with
  | Panics msg => Panics msg
  | Returns (payloads, err) =>
      Returns
        match err with
        | Some e => (None, Some e)
        | None => convertLoop 0 payloads ∅
        end
  end.

(** [GetSerializedEncryptedRecords] extracts and serializes the encrypted
    payloads. *)
Definition GetSerializedEncryptedRecords (r : AggregatableReport)
  : outcome (option (gmap string string) * option error) :=
  convertReport r false.

(** [GetSerializedCleartextRecords] extracts and serializes the cleartext
    payloads. *)
Definition GetSerializedCleartextRecords (r : AggregatableReport)
  : outcome (option (gmap string string) * option error) :=
  convertReport r true.

End reporttypes.

(** ** Notions used in the statements *)

Module notions.

Import reporttypes.

(** The error kinds of the specification, read off the Go error values: the
    payload-count errors are the only ones this package makes with
    [fmt.Errorf]; a decoding error is one raised by the base64 decoder or by
    the parser of the wire format. *)
Definition InvalidPayloadCount (e : error) : bool :=
  match e with
  | Errorf _ => true
  | _ => false
  end.

Definition DecodeError (e : error) : bool :=
  match e with
  | CorruptInputError _ | errDecode => true
  | _ => false
  end.

(** The field of a payload entry that the extractor decodes. *)
Definition selectedField (useCleartext : bool) (p : AggregationServicePayload)
  : string :=
  if useCleartext then DebugCleartextPayload p else Payload p.

(** The record that stands for a payload entry: the decoded bytes of the
    selected field, the shared info of the report, and the key id, which is
    empty on the cleartext channel. *)
Definition recordOf (sharedInfo : string) (useCleartext : bool)
    (p : AggregationServicePayload) : pb.AggregatablePayload :=
  {| pb.Payload :=
       Some {| pb.Data := fst (base64.DecodeString (selectedField useCleartext p)) |};
     pb.SharedInfo := sharedInfo;
     pb.KeyId := if useCleartext then ""%string else KeyID p |}.

(** The error of the first element of [l] on which [f] fails. *)
Fixpoint firstError {A : Type} (f : A -> option error) (l : list A) : option error :=
  match l with
  | [] => None
  | x :: l' =>
      match f x with
      | Some e => Some e
      | None => firstError f l'
      end
  end.

(** The payload entries that are not nil, in order. *)
Fixpoint objects (payloads : list (option AggregationServicePayload))
  : list AggregationServicePayload :=
  match payloads with
  | [] => []
  | None :: rest => objects rest
  | Some p :: rest => p :: objects rest
  end.

(** What stops the extraction first, going through the entries in order: a
    nil entry (a panic), or an entry whose selected field does not decode
    (the error of the decoder); [Returns None] when nothing does. *)
Fixpoint firstDecodeError (useCleartext : bool)
    (payloads : list (option AggregationServicePayload)) : outcome (option error) :=
  match payloads with
  | [] => Returns None
  | None :: _ => Panics nilDereference
  | Some p :: rest =>
      match snd (base64.DecodeString (selectedField useCleartext p)) with
      | Some e => Returns (Some e)
      | None => firstDecodeError useCleartext rest
      end
  end.

Definition firstSerializeError (records : list pb.AggregatablePayload)
  : option error :=
  firstError (fun record => snd (SerializeAggregatablePayload record)) records.

(** The keys ["0"], ["1"], ... of the first [n] positions. *)
Definition indexKeys (n : nat) : list string :=
  (fun i => strconv.Itoa (Z.of_nat i)) <$> seq 0 n.

(** Two reports that are identical except in the [DebugCleartextPayload]
    fields of their payload entries: the entries at the same position are
    both nil, or both objects with the same [Payload] and [KeyID]. *)
Definition sameExceptCleartext (r1 r2 : AggregatableReport) : Prop :=
  SourceSite r1 = SourceSite r2
  /\ AttributionDestination r1 = AttributionDestination r2
  /\ SharedInfo r1 = SharedInfo r2
  /\ SourceDebugKey r1 = SourceDebugKey r2
  /\ TriggerDebugKey r1 = TriggerDebugKey r2
  /\ Forall2 (fun e1 e2 =>
                match e1, e2 with
                | Some p1, Some p2 => Payload p1 = Payload p2 /\ KeyID p1 = KeyID p2
                | None, None => True
                | _, _ => False
                end)
       (AggregationServicePayloads r1) (AggregationServicePayloads r2).

(** A report is well formed for a channel when none of its payload entries
    is nil, the selected field of every entry is valid base64, and the
    strings that go into the records (the shared info, and the key ids on the
    encrypted channel) are valid UTF-8. *)
Definition wellFormedFor (useCleartext : bool) (r : AggregatableReport) : bool :=
  utf8.ValidString (SharedInfo r)
  && forallb (fun entry =>
                match entry with
                | None => false
                | Some p =>
                    match snd (base64.DecodeString (selectedField useCleartext p)) with
                    | None => true
                    | Some _ => false
                    end
                    && (useCleartext || utf8.ValidString (KeyID p))
                end)
       (AggregationServicePayloads r).

(** A report with the given shared info and payload entries, none of them
    nil, its other fields empty. *)
Definition mkReport (sharedInfo : string)
    (payloads : list AggregationServicePayload) : AggregatableReport :=
  {| SourceSite := ""; AttributionDestination := ""; SharedInfo := sharedInfo;
     AggregationServicePayloads := map Some payloads;
     SourceDebugKey := ""; TriggerDebugKey := "" |}.

Definition mkPayload (payload keyID cleartext : string) : AggregationServicePayload :=
  {| Payload := payload; KeyID := keyID; DebugCleartextPayload := cleartext |}.

End notions.

(** ** Further notions used in the statements *)

Module bounds.

Import reporttypes.

(** Whether a length is one that a Go string or slice can have. *)
Definition fitsInt (n : nat) : bool := Z.of_nat n <=? pb.MaxInt.

(** The strings of a report have lengths that Go strings can have. *)
Definition lengthsFit (r : AggregatableReport) : bool :=
  fitsInt (String.length (SharedInfo r))
  && forallb (fun entry =>
                match entry with
                | None => true
                | Some p => fitsInt (String.length (Payload p))
                            && fitsInt (String.length (KeyID p))
                            && fitsInt (String.length (DebugCleartextPayload p))
                end)
       (AggregationServicePayloads r).

(** A character of the base64 alphabet, or the padding character. *)
Definition isBase64Char (c : byte) : bool :=
  existsb (Byte.eqb c) base64.encodeStd || Byte.eqb c base64.padChar.

(** Two reports that are identical except in the [Payload] and [KeyID]
    fields of their payload entries: the entries at the same position are
    both nil, or both objects with the same [DebugCleartextPayload]. *)
Definition sameExceptEncrypted (r1 r2 : AggregatableReport) : Prop :=
  SourceSite r1 = SourceSite r2
  /\ AttributionDestination r1 = AttributionDestination r2
  /\ SharedInfo r1 = SharedInfo r2
  /\ SourceDebugKey r1 = SourceDebugKey r2
  /\ TriggerDebugKey r1 = TriggerDebugKey r2
  /\ Forall2 (fun e1 e2 =>
                match e1, e2 with
                | Some p1, Some p2 =>
                    DebugCleartextPayload p1 = DebugCleartextPayload p2
                | None, None => True
                | _, _ => False
                end)
       (AggregationServicePayloads r1) (AggregationServicePayloads r2).

(** The input of the decoder without its newline characters. *)
Definition stripNewlines (src : list byte) : list byte :=
  List.filter (fun c => negb (base64.isNewline c)) src.

End bounds.

(** ** Facts about bytes and bit packing *)

Section BitFacts.

Lemma Z_of_byte_range (b : byte) : 0 <= Z_of_byte b < 256.
Proof.
  unfold Z_of_byte. pose proof (Byte.to_N_bounded b). lia.
Qed.

Lemma byte_of_Z_of_byte (b : byte) : byte_of_Z (Z_of_byte b) = b.
Proof.
  unfold byte_of_Z. pose proof (Z_of_byte_range b) as Hb.
  rewrite Z.mod_small by lia. unfold Z_of_byte.
  now rewrite N2Z.id, Byte.of_to_N.
Qed.

Lemma byte_of_Z_mod (v : Z) : byte_of_Z (v mod 256) = byte_of_Z v.
Proof.
  unfold byte_of_Z. now rewrite Z.mod_mod by lia.
Qed.

Lemma Z_of_byte_of_Z (v : Z) : Z_of_byte (byte_of_Z v) = v mod 256.
Proof.
  unfold byte_of_Z, Z_of_byte.
  assert (Hr : 0 <= v mod 256 < 256) by (apply Z.mod_pos_bound; lia).
  destruct (Byte.of_N (Z.to_N (v mod 256))) as [b|] eqn:E.
  - apply Byte.to_of_N in E. rewrite E. lia.
  - apply Byte.of_N_None_iff in E. lia.
Qed.

(** Or-ing a value below [2^n] into a multiple of [2^n] adds it. *)
Lemma lor_disjoint_add (x y n : Z) :
  0 <= n -> 0 <= y < 2 ^ n -> x mod 2 ^ n = 0 -> Z.lor x y = x + y.
Proof.
  intros Hn Hy Hx. symmetry. apply Z.add_nocarry_lor.
  apply Z.bits_inj'. intros i Hi.
  rewrite Z.land_spec, Z.bits_0.
  destruct (Z.lt_ge_cases i n) as [Hlt|Hge].
  - rewrite <- (Z.mod_pow2_bits_low x n i) by lia.
    rewrite Hx, Z.bits_0. reflexivity.
  - destruct (Z.eq_dec y 0) as [->|Hy0].
    + rewrite Z.bits_0. apply andb_false_r.
    + rewrite (Z.bits_above_log2 y i); [apply andb_false_r|lia|].
      apply Z.log2_lt_pow2; [lia|].
      apply Z.lt_le_trans with (2 ^ n); [lia|].
      apply Z.pow_le_mono_r; lia.
Qed.

End BitFacts.

(** Evaluates the powers of two with a literal exponent. *)
Ltac eval_pow2 :=
  repeat match goal with
         | |- context [2 ^ ?k] =>
             let v := eval cbv in (2 ^ k) in change (2 ^ k) with v
         end.

(** Rewrites shifts and masks by constants into multiplications, divisions
    and remainders. *)
Ltac shifts_to_arith :=
  repeat first
    [ rewrite Z.shiftl_mul_pow2 by lia
    | rewrite Z.shiftr_div_pow2 by lia
    | progress change 63 with (Z.ones 6)
    | progress change 127 with (Z.ones 7)
    | rewrite Z.land_ones by lia ];
  eval_pow2.

(** ** base64: decoding inverts encoding *)

Section Base64Facts.

Import base64.

Lemma decodeMap_encode (v : Z) : 0 <= v < 64 -> decodeMap (encode v) = v.
Proof.
  intros Hv.
  assert (Hall : forallb (fun n => decodeMap (encode (Z.of_nat n)) =? Z.of_nat n)
                         (seq 0 64) = true) by (vm_compute; reflexivity).
  rewrite forallb_forall in Hall.
  specialize (Hall (Z.to_nat v)).
  rewrite Z2Nat.id in Hall by lia.
  apply Z.eqb_eq, Hall, in_seq. lia.
Qed.

(** Reading a character of the alphabet stores its value in the quantum. *)
Lemma decodeLoop_alphabet (v : Z) (src : list byte) (si : Z) (dbuf : list Z) :
  0 <= v < 64 ->
  decodeLoop (encode v :: src) si dbuf =
    if (length (dbuf ++ [v]) =? 4)%nat then
      let '(dst, err) := decodeLoop src (si + 1) [] in
      (quantumBytes (dbuf ++ [v]) ++ dst, err)
    else decodeLoop src (si + 1) (dbuf ++ [v]).
Proof.
  intros Hv. cbn [decodeLoop]. rewrite (decodeMap_encode v Hv).
  replace (v =? 255) with false by (symmetry; apply Z.eqb_neq; lia).
  reflexivity.
Qed.

Lemma sextet_range (x : Z) : 0 <= Z.land x 63 < 64.
Proof.
  change 63 with (Z.ones 6). rewrite Z.land_ones by lia.
  apply Z.mod_pos_bound. lia.
Qed.

(** The three bytes packed into 24 bits. *)
Lemma pack3 (b0 b1 b2 : byte) :
  Z.lor (Z.lor (Z.shiftl (Z_of_byte b0) 16) (Z.shiftl (Z_of_byte b1) 8))
        (Z_of_byte b2)
  = Z_of_byte b0 * 65536 + Z_of_byte b1 * 256 + Z_of_byte b2.
Proof.
  pose proof (Z_of_byte_range b0). pose proof (Z_of_byte_range b1).
  pose proof (Z_of_byte_range b2).
  rewrite !Z.shiftl_mul_pow2 by lia. eval_pow2.
  rewrite (lor_disjoint_add (Z_of_byte b0 * 65536) _ 16);
    [|lia|eval_pow2; lia|eval_pow2; apply Z.mod_mul; lia].
  rewrite (lor_disjoint_add _ (Z_of_byte b2) 8); [lia|lia|eval_pow2; lia|].
  eval_pow2.
  replace (Z_of_byte b0 * 65536 + Z_of_byte b1 * 256)
    with ((Z_of_byte b0 * 256 + Z_of_byte b1) * 256) by lia.
  apply Z.mod_mul. lia.
Qed.

(** Four 6-bit values packed into 24 bits. *)
Lemma pack4 (d0 d1 d2 d3 : Z) :
  0 <= d0 < 64 -> 0 <= d1 < 64 -> 0 <= d2 < 64 -> 0 <= d3 < 64 ->
  Z.lor (Z.lor (Z.lor (Z.shiftl d0 18) (Z.shiftl d1 12)) (Z.shiftl d2 6)) d3
  = d0 * 262144 + d1 * 4096 + d2 * 64 + d3.
Proof.
  intros H0 H1 H2 H3.
  rewrite !Z.shiftl_mul_pow2 by lia. eval_pow2.
  rewrite (lor_disjoint_add (d0 * 262144) _ 18);
    [|lia|eval_pow2; lia|eval_pow2; apply Z.mod_mul; lia].
  rewrite (lor_disjoint_add _ (d2 * 64) 12); [|lia|eval_pow2; lia|eval_pow2].
  2:{ replace (d0 * 262144 + d1 * 4096) with ((d0 * 64 + d1) * 4096) by lia.
      apply Z.mod_mul. lia. }
  rewrite (lor_disjoint_add _ d3 6); [lia|lia|eval_pow2; lia|eval_pow2].
  replace (d0 * 262144 + d1 * 4096 + d2 * 64)
    with ((d0 * 4096 + d1 * 64 + d2) * 64) by lia.
  apply Z.mod_mul. lia.
Qed.

Lemma byte_of_Z_eq (v : Z) (b : byte) : v mod 256 = Z_of_byte b -> byte_of_Z v = b.
Proof.
  intros H. rewrite <- byte_of_Z_mod, H. apply byte_of_Z_of_byte.
Qed.

(** A full quantum gives back the three bytes it was made from. *)
Lemma quantumBytes_3 (b0 b1 b2 : byte) :
  let val := Z.lor (Z.lor (Z.shiftl (Z_of_byte b0) 16) (Z.shiftl (Z_of_byte b1) 8))
                   (Z_of_byte b2) in
  quantumBytes [Z.land (Z.shiftr val 18) 63; Z.land (Z.shiftr val 12) 63;
                Z.land (Z.shiftr val 6) 63; Z.land val 63]
  = [b0; b1; b2].
Proof.
  intros val. unfold quantumBytes. cbn [nth length Nat.sub firstn].
  rewrite pack4 by apply sextet_range.
  subst val. rewrite pack3.
  pose proof (Z_of_byte_range b0). pose proof (Z_of_byte_range b1).
  pose proof (Z_of_byte_range b2).
  shifts_to_arith.
  repeat f_equal; apply byte_of_Z_eq; Z.div_mod_to_equations; lia.
Qed.

(** A quantum of three characters gives back its two bytes. *)
Lemma quantumBytes_2 (b0 b1 : byte) :
  let val := Z.lor (Z.shiftl (Z_of_byte b0) 16) (Z.shiftl (Z_of_byte b1) 8) in
  quantumBytes [Z.land (Z.shiftr val 18) 63; Z.land (Z.shiftr val 12) 63;
                Z.land (Z.shiftr val 6) 63]
  = [b0; b1].
Proof.
  intros val. unfold quantumBytes. cbn [nth length Nat.sub firstn].
  rewrite pack4 by (try apply sextet_range; lia).
  assert (Hval : val = Z_of_byte b0 * 65536 + Z_of_byte b1 * 256 + Z_of_byte x00).
  { rewrite <- pack3. subst val. change (Z_of_byte x00) with 0.
    now rewrite Z.lor_0_r. }
  rewrite Hval. change (Z_of_byte x00) with 0.
  pose proof (Z_of_byte_range b0). pose proof (Z_of_byte_range b1).
  shifts_to_arith.
  repeat f_equal; apply byte_of_Z_eq; Z.div_mod_to_equations; lia.
Qed.

(** A quantum of two characters gives back its byte. *)
Lemma quantumBytes_1 (b0 : byte) :
  let val := Z.shiftl (Z_of_byte b0) 16 in
  quantumBytes [Z.land (Z.shiftr val 18) 63; Z.land (Z.shiftr val 12) 63] = [b0].
Proof.
  intros val. unfold quantumBytes. cbn [nth length Nat.sub firstn].
  rewrite pack4 by (try apply sextet_range; lia).
  subst val. pose proof (Z_of_byte_range b0).
  shifts_to_arith.
  repeat f_equal; apply byte_of_Z_eq; Z.div_mod_to_equations; lia.
Qed.

(** Induction over a list three elements at a time, as [Encode] recurses. *)
Lemma list_ind3 {A : Type} (P : list A -> Prop) :
  P [] -> (forall a, P [a]) -> (forall a b, P [a; b]) ->
  (forall a b c l, P l -> P (a :: b :: c :: l)) ->
  forall l, P l.
Proof.
  intros H0 H1 H2 H3 l.
  enough (H : P l /\ (forall a, P (a :: l)) /\ (forall a b, P (a :: b :: l)))
    by apply H.
  induction l as [|x l (IH0 & IH1 & IH2)]; [now auto|].
  repeat split; auto.
Qed.

Lemma decodeLoop_padding_2 (d0 d1 : Z) (si : Z) :
  decodeLoop [padChar; padChar] si [d0; d1] = (quantumBytes [d0; d1], None).
Proof. reflexivity. Qed.

Lemma decodeLoop_padding_1 (d0 d1 d2 : Z) (si : Z) :
  decodeLoop [padChar] si [d0; d1; d2] = (quantumBytes [d0; d1; d2], None).
Proof. reflexivity. Qed.

Lemma decodeLoop_Encode (src : list byte) :
  forall si, decodeLoop (Encode src) si [] = (src, None).
Proof.
  induction src as [|b0|b0 b1|b0 b1 b2 rest IH] using list_ind3; intros si.
  - reflexivity.
  - cbn [Encode]. rewrite !decodeLoop_alphabet by apply sextet_range.
    cbn [app length Nat.eqb].
    now rewrite decodeLoop_padding_2, quantumBytes_1.
  - cbn [Encode]. rewrite !decodeLoop_alphabet by apply sextet_range.
    cbn [app length Nat.eqb].
    now rewrite decodeLoop_padding_1, quantumBytes_2.
  - cbn [Encode]. rewrite !decodeLoop_alphabet by apply sextet_range.
    cbn [app length Nat.eqb]. rewrite IH, quantumBytes_3. reflexivity.
Qed.

(** Decoding the encoding of any byte sequence succeeds and gives it back. *)
Lemma DecodeString_EncodeToString (src : list byte) :
  DecodeString (EncodeToString src) = (src, None).
Proof.
  unfold DecodeString, EncodeToString.
  rewrite list_byte_of_string_of_list_byte. apply decodeLoop_Encode.
Qed.

(** Every error of the decoder is a [CorruptInputError]. *)
Lemma decodeLoop_error (src : list byte) :
  forall (si : Z) (dbuf : list Z) (e : error),
    snd (decodeLoop src si dbuf) = Some e -> exists off, e = CorruptInputError off.
Proof.
  assert (Hpad : forall src si dbuf e,
             snd (afterPadding src si dbuf) = Some e ->
             exists off, e = CorruptInputError off).
  { intros src' si dbuf e. unfold afterPadding.
    destruct (skipNewlines src' si) as [[|c rest] si']; cbn [snd];
      [discriminate|]. intros [= <-]. eauto. }
  induction src as [|c src IH]; intros si dbuf e; cbn [decodeLoop].
  - destruct dbuf; cbn [snd]; [discriminate|]. intros [= <-]. eauto.
  - destruct (negb (decodeMap c =? 255)).
    + destruct (length (dbuf ++ [decodeMap c]) =? 4)%nat.
      * specialize (IH (si + 1) [] e).
        destruct (decodeLoop src (si + 1) []) as [dst err]. exact IH.
      * apply IH.
    + destruct (isNewline c); [apply IH|].
      destruct (negb (Byte.eqb c padChar)); [cbn [snd]; intros [= <-]; eauto|].
      destruct (length dbuf) as [|[|[|n]]].
      * cbn [snd]. intros [= <-]. eauto.
      * cbn [snd]. intros [= <-]. eauto.
      * destruct (skipNewlines src (si + 1)) as [[|c2 src3] si2].
        -- cbn [snd]. intros [= <-]. eauto.
        -- destruct (negb (Byte.eqb c2 padChar)); [cbn [snd]; intros [= <-]; eauto|].
           apply Hpad.
      * apply Hpad.
Qed.

Lemma DecodeString_error (s : string) (e : error) :
  snd (DecodeString s) = Some e -> exists off, e = CorruptInputError off.
Proof. apply decodeLoop_error. Qed.

End Base64Facts.

(** ** strconv: distinct integers have distinct decimal forms *)

Lemma Itoa_inj (a b : Z) : strconv.Itoa a = strconv.Itoa b -> a = b.
Proof.
  unfold strconv.Itoa. intros H.
  assert (Hnn : forall z, Z.to_int z <> Decimal.Pos Decimal.Nil
                          /\ Z.to_int z <> Decimal.Neg Decimal.Nil).
  { intros [|p|p]; cbn; split; try discriminate;
      intros E; injection E as E; now apply DecimalPos.Unsigned.to_uint_nonnil in E. }
  apply (f_equal NilZero.int_of_string) in H.
  rewrite !NilZero.isi in H by apply Hnn.
  injection H as H. now apply DecimalZ.to_int_inj.
Qed.

(** ** protowire: a varint is read back as written *)

Section VarintFacts.

Import protowire.

Lemma consumeVarintFrom_appendVarintFrom (n : nat) :
  forall (v shift : Z) (rest : list byte),
    0 <= shift -> 0 <= v < 2 ^ (7 * Z.of_nat n + 1) ->
    consumeVarintFrom n shift (appendVarintFrom n v ++ rest)
    = Some (Z.shiftl v shift, rest).
Proof.
  induction n as [|n IH]; intros v shift rest Hs Hv.
  - change (2 ^ (7 * Z.of_nat 0 + 1)) with 2 in Hv.
    cbn [appendVarintFrom consumeVarintFrom app].
    rewrite Z_of_byte_of_Z, Z.mod_small by lia.
    replace (v <? 2) with true by (symmetry; apply Z.ltb_lt; lia).
    reflexivity.
  - cbn [appendVarintFrom].
    destruct (v <? 128) eqn:Hlt.
    + apply Z.ltb_lt in Hlt.
      cbn [consumeVarintFrom app].
      rewrite Z_of_byte_of_Z, Z.mod_small by lia.
      replace (v <? 128) with true by (symmetry; apply Z.ltb_lt; lia).
      reflexivity.
    + apply Z.ltb_ge in Hlt.
      cbn [consumeVarintFrom app].
      assert (Hy : Z_of_byte (byte_of_Z (Z.lor (Z.land v 127) 128)) = v mod 128 + 128).
      { rewrite Z_of_byte_of_Z, Z.lor_comm.
        rewrite (lor_disjoint_add 128 _ 7); [| lia | | reflexivity ].
        - shifts_to_arith. Z.div_mod_to_equations; lia.
        - shifts_to_arith. Z.div_mod_to_equations; lia. }
      rewrite Hy.
      replace (v mod 128 + 128 <? 128) with false
        by (symmetry; apply Z.ltb_ge; Z.div_mod_to_equations; lia).
      assert (Hpow : 2 ^ (7 * Z.of_nat (S n) + 1) = 2 ^ (7 * Z.of_nat n + 1) * 128).
      { replace (7 * Z.of_nat (S n) + 1) with ((7 * Z.of_nat n + 1) + 7) by lia.
        rewrite Z.pow_add_r by lia. reflexivity. }
      rewrite IH; [| lia |].
      * f_equal. f_equal.
        rewrite !Z.shiftl_mul_pow2, Z.shiftr_div_pow2 by lia.
        rewrite Z.pow_add_r by lia. change (2 ^ 7) with 128.
        replace (v mod 128 + 128 - 128) with (v mod 128) by lia.
        rewrite (Z.div_mod v 128) at 3 by lia. ring.
      * rewrite Z.shiftr_div_pow2 by lia. change (2 ^ 7) with 128.
        split; [apply Z.div_pos; lia|].
        apply Z.div_lt_upper_bound; lia.
Qed.

Lemma ConsumeVarint_AppendVarint (v : Z) (rest : list byte) :
  0 <= v < 2 ^ 64 ->
  ConsumeVarint (AppendVarint v ++ rest) = Some (v, rest).
Proof.
  intros Hv. unfold ConsumeVarint, AppendVarint.
  rewrite consumeVarintFrom_appendVarintFrom; [| lia | exact Hv].
  now rewrite Z.shiftl_0_r.
Qed.

(** A length-delimited value is read back as written. *)
Lemma ConsumeBytes_AppendBytes (v rest : list byte) :
  Z.of_nat (length v) < 2 ^ 64 ->
  ConsumeBytes (AppendBytes v ++ rest) = Some (v, rest).
Proof.
  intros Hlen. unfold ConsumeBytes, AppendBytes.
  rewrite <- app_assoc, ConsumeVarint_AppendVarint by lia.
  rewrite length_app.
  replace (Z.of_nat (length v + length rest) <? Z.of_nat (length v)) with false
    by (symmetry; apply Z.ltb_ge; lia).
  rewrite Nat2Z.id.
  now rewrite firstn_app, Nat.sub_diag, firstn_all, firstn_O, app_nil_r,
    skipn_app, Nat.sub_diag, skipn_all, skipn_O.
Qed.

End VarintFacts.

(** ** proto: a marshalled record is unmarshalled to itself *)

Section ProtoFacts.

Import protowire proto.

Lemma length_appendVarintFrom (n : nat) (v : Z) :
  (1 <= length (appendVarintFrom n v) <= S n)%nat.
Proof.
  revert v. induction n as [|n IH]; intros v; cbn [appendVarintFrom].
  - cbn. lia.
  - destruct (v <? 128); cbn [length]; [lia|].
    specialize (IH (Z.shiftr v 7)). lia.
Qed.

Lemma length_AppendVarint (v : Z) : (1 <= length (AppendVarint v) <= 10)%nat.
Proof. apply length_appendVarintFrom. Qed.

(** The tags of the three fields are single bytes. *)
Lemma AppendVarint_wiretag_1 : AppendVarint (pb.wiretag 1) = [x0a].
Proof. reflexivity. Qed.
Lemma AppendVarint_wiretag_2 : AppendVarint (pb.wiretag 2) = [x12].
Proof. reflexivity. Qed.
Lemma AppendVarint_wiretag_3 : AppendVarint (pb.wiretag 3) = [x1a].
Proof. reflexivity. Qed.

(** One round of [unmarshalPointer] on a length-delimited field whose tag is
    a single byte. *)
Lemma unmarshalPointer_field_1 {M : Type}
    (coder : Z -> Z -> list byte -> M -> fieldOutcome M)
    (fuel : nat) (b1 : list byte) (m m' : M) (rest : list byte) :
  coder 1 BytesType b1 m = FieldOk m' rest ->
  unmarshalPointer coder (S fuel) (x0a :: b1) m = unmarshalPointer coder fuel rest m'.
Proof.
  intros H. cbn [unmarshalPointer].
  change (ConsumeVarint (x0a :: b1)) with (Some (10, b1)).
  cbv beta iota. change (Z.shiftr 10 3) with 1. change (Z.land 10 7) with BytesType.
  rewrite H. reflexivity.
Qed.

Lemma unmarshalPointer_field_2 {M : Type}
    (coder : Z -> Z -> list byte -> M -> fieldOutcome M)
    (fuel : nat) (b1 : list byte) (m m' : M) (rest : list byte) :
  coder 2 BytesType b1 m = FieldOk m' rest ->
  unmarshalPointer coder (S fuel) (x12 :: b1) m = unmarshalPointer coder fuel rest m'.
Proof.
  intros H. cbn [unmarshalPointer].
  change (ConsumeVarint (x12 :: b1)) with (Some (18, b1)).
  cbv beta iota. change (Z.shiftr 18 3) with 2. change (Z.land 18 7) with BytesType.
  rewrite H. reflexivity.
Qed.

Lemma unmarshalPointer_field_3 {M : Type}
    (coder : Z -> Z -> list byte -> M -> fieldOutcome M)
    (fuel : nat) (b1 : list byte) (m m' : M) (rest : list byte) :
  coder 3 BytesType b1 m = FieldOk m' rest ->
  unmarshalPointer coder (S fuel) (x1a :: b1) m = unmarshalPointer coder fuel rest m'.
Proof.
  intros H. cbn [unmarshalPointer].
  change (ConsumeVarint (x1a :: b1)) with (Some (26, b1)).
  cbv beta iota. change (Z.shiftr 26 3) with 3. change (Z.land 26 7) with BytesType.
  rewrite H. reflexivity.
Qed.

Lemma unmarshalPointer_nil {M : Type}
    (coder : Z -> Z -> list byte -> M -> fieldOutcome M) (fuel : nat) (m : M) :
  unmarshalPointer coder fuel [] m = (m, None).
Proof. destruct fuel; reflexivity. Qed.

(** The wire form of a ciphertext message parses back to the message. *)
Lemma unmarshalPointer_StandardCiphertext (sc : pb.StandardCiphertext) (fuel : nat) :
  Z.of_nat (length (pb.Data sc)) < 2 ^ 64 ->
  (length (appendBytesNoZero (pb.wiretag 1) (pb.Data sc)) <= fuel)%nat ->
  unmarshalPointer unmarshalField fuel
    (appendBytesNoZero (pb.wiretag 1) (pb.Data sc)) zero = (sc, None).
Proof.
  destruct sc as [data]. cbn [pb.Data]. intros Hlen Hfuel.
  destruct data as [|d data].
  - cbn [appendBytesNoZero]. apply unmarshalPointer_nil.
  - cbn [appendBytesNoZero] in *. rewrite AppendVarint_wiretag_1 in *.
    cbn [app] in *.
    destruct fuel as [|fuel]; [cbn [length] in Hfuel; lia|].
    erewrite unmarshalPointer_field_1; [apply unmarshalPointer_nil|].
    cbn [unmarshalField pb.StandardCiphertext_Message].
    unfold consumeBytesNoZero. cbn [negb Z.eqb BytesType Pos.eqb].
    rewrite <- (app_nil_r (AppendBytes (d :: data))).
    now rewrite ConsumeBytes_AppendBytes.
Qed.

Lemma consumeMessageInfo_AppendBytes {M : Type} (sc : pb.StandardCiphertext)
    (rest : list byte) (set : pb.StandardCiphertext -> M) :
  Z.of_nat (length (pb.Data sc)) < 2 ^ 63 ->
  consumeMessageInfo
    (AppendBytes (appendBytesNoZero (pb.wiretag 1) (pb.Data sc)) ++ rest)
    BytesType None set
  = FieldOk (set sc) rest.
Proof.
  intros Hlen. unfold consumeMessageInfo. cbn [negb Z.eqb BytesType Pos.eqb].
  rewrite ConsumeBytes_AppendBytes.
  - rewrite unmarshalPointer_StandardCiphertext; [reflexivity| |lia].
    assert (2 ^ 63 < 2 ^ 64) by (eval_pow2; lia). lia.
  - assert (Hb : (length (appendBytesNoZero (pb.wiretag 1) (pb.Data sc))
                  <= 11 + length (pb.Data sc))%nat).
    { unfold appendBytesNoZero. destruct (pb.Data sc) as [|d data] eqn:E.
      - cbn. lia.
      - unfold AppendBytes. rewrite !length_app.
        pose proof (length_AppendVarint (pb.wiretag 1)).
        pose proof (length_AppendVarint (Z.of_nat (length (d :: data)))).
        rewrite AppendVarint_wiretag_1 in *. cbn [length] in *. lia. }
    revert Hlen. eval_pow2. lia.
Qed.

Lemma length_list_byte_of_string (s : string) :
  length (list_byte_of_string s) = String.length s.
Proof.
  unfold list_byte_of_string. rewrite length_map.
  induction s as [|c s IH]; cbn; [reflexivity|now rewrite IH].
Qed.

Lemma consumeStringValidateUTF8_AppendBytes {M : Type} (s : string)
    (rest : list byte) (set : string -> M) :
  Z.of_nat (String.length s) < 2 ^ 63 ->
  utf8.ValidString s = true ->
  consumeStringValidateUTF8 (AppendBytes (list_byte_of_string s) ++ rest)
    BytesType set
  = FieldOk (set s) rest.
Proof.
  intros Hlen Hvalid. unfold consumeStringValidateUTF8.
  cbn [negb Z.eqb BytesType Pos.eqb].
  rewrite ConsumeBytes_AppendBytes.
  - unfold utf8.ValidString in Hvalid. rewrite Hvalid. cbn [negb].
    now rewrite string_of_list_byte_of_string.
  - rewrite length_list_byte_of_string.
    assert (2 ^ 63 < 2 ^ 64) by (eval_pow2; lia). lia.
Qed.

Lemma wellFormed_inv (m : pb.AggregatablePayload) :
  pb.wellFormed m = true ->
  utf8.ValidString (pb.SharedInfo m) = true
  /\ utf8.ValidString (pb.KeyId m) = true
  /\ Z.of_nat (String.length (pb.SharedInfo m)) < 2 ^ 63
  /\ Z.of_nat (String.length (pb.KeyId m)) < 2 ^ 63
  /\ (forall sc, pb.Payload m = Some sc -> Z.of_nat (length (pb.Data sc)) < 2 ^ 63).
Proof.
  unfold pb.wellFormed, pb.MaxInt. rewrite !andb_true_iff, !Z.leb_le.
  intros ((((Hs & Hk) & Hls) & Hlk) & Hp).
  repeat split; try assumption; try lia.
  intros sc E. rewrite E in Hp. apply Z.leb_le in Hp. lia.
Qed.

Lemma unmarshalField_payload (sc : pb.StandardCiphertext) (rest : list byte)
    (m0 : pb.AggregatablePayload) :
  Z.of_nat (length (pb.Data sc)) < 2 ^ 63 ->
  pb.Payload m0 = None ->
  unmarshalField 1 BytesType
    (AppendBytes (appendBytesNoZero (pb.wiretag 1) (pb.Data sc)) ++ rest) m0
  = FieldOk {| pb.Payload := Some sc; pb.SharedInfo := pb.SharedInfo m0;
               pb.KeyId := pb.KeyId m0 |} rest.
Proof.
  intros Hlen E0. cbn [unmarshalField pb.AggregatablePayload_Message].
  change (1 =? 1) with true. cbv iota. rewrite E0.
  now rewrite consumeMessageInfo_AppendBytes.
Qed.

Lemma unmarshalField_sharedInfo (s : string) (rest : list byte)
    (m0 : pb.AggregatablePayload) :
  Z.of_nat (String.length s) < 2 ^ 63 -> utf8.ValidString s = true ->
  unmarshalField 2 BytesType (AppendBytes (list_byte_of_string s) ++ rest) m0
  = FieldOk {| pb.Payload := pb.Payload m0; pb.SharedInfo := s;
               pb.KeyId := pb.KeyId m0 |} rest.
Proof.
  intros Hlen Hv. cbn [unmarshalField pb.AggregatablePayload_Message].
  change (2 =? 1) with false. change (2 =? 2) with true. cbv iota.
  now rewrite consumeStringValidateUTF8_AppendBytes.
Qed.

Lemma unmarshalField_keyId (k : string) (rest : list byte)
    (m0 : pb.AggregatablePayload) :
  Z.of_nat (String.length k) < 2 ^ 63 -> utf8.ValidString k = true ->
  unmarshalField 3 BytesType (AppendBytes (list_byte_of_string k) ++ rest) m0
  = FieldOk {| pb.Payload := pb.Payload m0; pb.SharedInfo := pb.SharedInfo m0;
               pb.KeyId := k |} rest.
Proof.
  intros Hlen Hv. cbn [unmarshalField pb.AggregatablePayload_Message].
  change (3 =? 1) with false. change (3 =? 2) with false.
  change (3 =? 3) with true. cbv iota.
  now rewrite consumeStringValidateUTF8_AppendBytes.
Qed.

Lemma appendString_valid (w : Z) (s : string) :
  utf8.ValidString s = true ->
  snd (appendStringNoZeroValidateUTF8 w s) = None.
Proof.
  intros Hv. unfold appendStringNoZeroValidateUTF8.
  destruct s; [reflexivity|]. now rewrite Hv.
Qed.

(** One round on the shared-info field, when it is present. *)
Lemma unmarshalPointer_sharedInfo (s : string) (rest : list byte)
    (m0 : pb.AggregatablePayload) (fuel : nat) :
  Z.of_nat (String.length s) < 2 ^ 63 -> utf8.ValidString s = true ->
  pb.SharedInfo m0 = ""%string ->
  (length (fst (appendStringNoZeroValidateUTF8 (pb.wiretag 2) s) ++ rest) <= fuel)%nat ->
  exists fuel',
    (length rest <= fuel')%nat
    /\ unmarshalPointer unmarshalField fuel
         (fst (appendStringNoZeroValidateUTF8 (pb.wiretag 2) s) ++ rest) m0
       = unmarshalPointer unmarshalField fuel' rest
           {| pb.Payload := pb.Payload m0; pb.SharedInfo := s; pb.KeyId := pb.KeyId m0 |}.
Proof.
  intros Hlen Hv E Hfuel. unfold appendStringNoZeroValidateUTF8 in *.
  destruct s as [|c s].
  - exists fuel. split; [exact Hfuel|]. destruct m0; cbn in *; now subst.
  - rewrite Hv in *. cbn [negb fst] in *.
    rewrite AppendVarint_wiretag_2 in *. cbn [app] in *.
    destruct fuel as [|fuel]; [cbn [length] in Hfuel; lia|].
    exists fuel. split.
    + cbn [length] in Hfuel. rewrite length_app in Hfuel. lia.
    + apply unmarshalPointer_field_2. now apply unmarshalField_sharedInfo.
Qed.

(** One round on the key-id field, when it is present. *)
Lemma unmarshalPointer_keyId (k : string) (rest : list byte)
    (m0 : pb.AggregatablePayload) (fuel : nat) :
  Z.of_nat (String.length k) < 2 ^ 63 -> utf8.ValidString k = true ->
  pb.KeyId m0 = ""%string ->
  (length (fst (appendStringNoZeroValidateUTF8 (pb.wiretag 3) k) ++ rest) <= fuel)%nat ->
  exists fuel',
    (length rest <= fuel')%nat
    /\ unmarshalPointer unmarshalField fuel
         (fst (appendStringNoZeroValidateUTF8 (pb.wiretag 3) k) ++ rest) m0
       = unmarshalPointer unmarshalField fuel' rest
           {| pb.Payload := pb.Payload m0; pb.SharedInfo := pb.SharedInfo m0; pb.KeyId := k |}.
Proof.
  intros Hlen Hv E Hfuel. unfold appendStringNoZeroValidateUTF8 in *.
  destruct k as [|c k].
  - exists fuel. split; [exact Hfuel|]. destruct m0; cbn in *; now subst.
  - rewrite Hv in *. cbn [negb fst] in *.
    rewrite AppendVarint_wiretag_3 in *. cbn [app] in *.
    destruct fuel as [|fuel]; [cbn [length] in Hfuel; lia|].
    exists fuel. split.
    + cbn [length] in Hfuel. rewrite length_app in Hfuel. lia.
    + apply unmarshalPointer_field_3. now apply unmarshalField_keyId.
Qed.

(** One round on the payload field. *)
Lemma unmarshalPointer_payload (sc : pb.StandardCiphertext) (rest : list byte)
    (m0 : pb.AggregatablePayload) (fuel : nat) :
  Z.of_nat (length (pb.Data sc)) < 2 ^ 63 ->
  pb.Payload m0 = None ->
  (length (fst (appendMessageInfo (pb.wiretag 1) (marshalAppendPointer sc)) ++ rest)
   <= fuel)%nat ->
  exists fuel',
    (length rest <= fuel')%nat
    /\ unmarshalPointer unmarshalField fuel
         (fst (appendMessageInfo (pb.wiretag 1) (marshalAppendPointer sc)) ++ rest) m0
       = unmarshalPointer unmarshalField fuel' rest
           {| pb.Payload := Some sc; pb.SharedInfo := pb.SharedInfo m0;
              pb.KeyId := pb.KeyId m0 |}.
Proof.
  intros Hlen E Hfuel.
  cbn [marshalAppendPointer pb.StandardCiphertext_Message appendMessageInfo fst] in *.
  rewrite AppendVarint_wiretag_1 in *. cbn [app] in *.
  destruct fuel as [|fuel]; [cbn [length] in Hfuel; lia|].
  exists fuel. split.
  - cbn [length] in Hfuel. rewrite length_app in Hfuel. lia.
  - apply unmarshalPointer_field_1.
    fold (AppendBytes (appendBytesNoZero (pb.wiretag 1) (pb.Data sc))).
    now apply unmarshalField_payload.
Qed.

(** What [marshalAppendPointer] emits for a record with valid strings: the
    three fields one after the other. *)
Lemma marshalAppendPointer_fields (m : pb.AggregatablePayload) :
  utf8.ValidString (pb.SharedInfo m) = true ->
  utf8.ValidString (pb.KeyId m) = true ->
  marshalAppendPointer m =
    (match pb.Payload m with
     | Some sc => fst (appendMessageInfo (pb.wiretag 1) (marshalAppendPointer sc))
     | None => []
     end
     ++ fst (appendStringNoZeroValidateUTF8 (pb.wiretag 2) (pb.SharedInfo m))
     ++ fst (appendStringNoZeroValidateUTF8 (pb.wiretag 3) (pb.KeyId m)),
     None).
Proof.
  intros Hs Hk.
  cbn [marshalAppendPointer pb.AggregatablePayload_Message].
  pose proof (appendString_valid (pb.wiretag 2) _ Hs) as E2.
  pose proof (appendString_valid (pb.wiretag 3) _ Hk) as E3.
  destruct (appendStringNoZeroValidateUTF8 (pb.wiretag 2) (pb.SharedInfo m)) as [b2 e2].
  destruct (appendStringNoZeroValidateUTF8 (pb.wiretag 3) (pb.KeyId m)) as [b3 e3].
  cbn [snd fst] in *. subst e2 e3.
  destruct (pb.Payload m) as [sc|]; reflexivity.
Qed.

(** Marshalling a record whose strings are valid UTF-8 succeeds. *)
Lemma Marshal_valid (m : pb.AggregatablePayload) :
  utf8.ValidString (pb.SharedInfo m) = true ->
  utf8.ValidString (pb.KeyId m) = true ->
  snd (Marshal m) = None.
Proof.
  intros Hs Hk. unfold Marshal. now rewrite marshalAppendPointer_fields.
Qed.

Lemma Marshal_wellFormed (m : pb.AggregatablePayload) :
  pb.wellFormed m = true -> snd (Marshal m) = None.
Proof.
  intros Hwf. apply wellFormed_inv in Hwf as (Hs & Hk & _).
  now apply Marshal_valid.
Qed.

(** The only error of [Marshal] on a record is the UTF-8 one. *)
Lemma Marshal_error (m : pb.AggregatablePayload) (e : error) :
  snd (Marshal m) = Some e -> e = errInvalidUTF8.
Proof.
  unfold Marshal.
  cbn [marshalAppendPointer pb.AggregatablePayload_Message
       pb.StandardCiphertext_Message appendMessageInfo].
  unfold appendStringNoZeroValidateUTF8.
  destruct (pb.Payload m); destruct (pb.SharedInfo m); destruct (pb.KeyId m);
    repeat match goal with
           | |- context [negb (utf8.ValidString ?s)] =>
               destruct (utf8.ValidString s)
           end; cbn; congruence.
Qed.

(** The bytes marshalled for a well-formed record parse back to the record. *)
Lemma Unmarshal_Marshal (m : pb.AggregatablePayload) :
  pb.wellFormed m = true ->
  Unmarshal (fst (Marshal m)) = (m, None).
Proof.
  intros Hwf. apply wellFormed_inv in Hwf as (Hs & Hk & Hls & Hlk & Hp).
  unfold Marshal, Unmarshal. rewrite marshalAppendPointer_fields by assumption.
  cbn [fst].
  set (b3 := fst (appendStringNoZeroValidateUTF8 (pb.wiretag 3) (pb.KeyId m))).
  set (b2 := fst (appendStringNoZeroValidateUTF8 (pb.wiretag 2) (pb.SharedInfo m))).
  assert (Hstart : exists fuel1 m1,
             (length (b2 ++ b3) <= fuel1)%nat
             /\ pb.Payload m1 = pb.Payload m
             /\ pb.SharedInfo m1 = ""%string /\ pb.KeyId m1 = ""%string
             /\ unmarshalPointer unmarshalField
                  (length (match pb.Payload m with
                           | Some sc => fst (appendMessageInfo (pb.wiretag 1)
                                               (marshalAppendPointer sc))
                           | None => []
                           end ++ b2 ++ b3))
                  (match pb.Payload m with
                   | Some sc => fst (appendMessageInfo (pb.wiretag 1)
                                       (marshalAppendPointer sc))
                   | None => []
                   end ++ b2 ++ b3) zero
                = unmarshalPointer unmarshalField fuel1 (b2 ++ b3) m1).
  { destruct (pb.Payload m) as [sc|] eqn:E.
    - assert (E0 : pb.Payload (zero (M:=pb.AggregatablePayload)) = None)
        by reflexivity.
      destruct (unmarshalPointer_payload sc (b2 ++ b3) zero _ (Hp sc eq_refl)
                  E0 (Nat.le_refl _)) as (fuel1 & Hf1 & Hstep).
      eexists fuel1, _. rewrite Hstep. repeat split; [exact Hf1|..]; reflexivity.
    - exists (length (b2 ++ b3)), zero. repeat split. apply Nat.le_refl. }
  destruct Hstart as (fuel1 & m1 & Hf1 & Ep & Es & Ek & ->).
  subst b2 b3.
  destruct (unmarshalPointer_sharedInfo _ _ m1 fuel1 Hls Hs Es Hf1)
    as (fuel2 & Hf2 & ->).
  rewrite <- (app_nil_r (fst (appendStringNoZeroValidateUTF8 _ (pb.KeyId m))))
    in Hf2 |- *.
  destruct (unmarshalPointer_keyId _ []
              {| pb.Payload := pb.Payload m1; pb.SharedInfo := pb.SharedInfo m;
                 pb.KeyId := pb.KeyId m1 |} fuel2 Hlk Hk Ek Hf2)
    as (fuel3 & _ & ->).
  rewrite unmarshalPointer_nil. cbn [pb.Payload pb.SharedInfo pb.KeyId].
  rewrite Ep. now destruct m.
Qed.
End ProtoFacts.

(** ** The report operations *)

Section ReportFacts.

Import reporttypes notions.

(** *** Protocol selection and validation *)

(** C1.  A report with one payload entry uses the one-party protocol and one
    with two entries the mpc protocol, and both are valid; for every other
    number of entries [GetProtocol] and [Validate] both return a payload-count
    error, which reports that number. *)
Theorem GetProtocol_Validate_by_count (r : AggregatableReport) :
  match length (AggregationServicePayloads r) with
  | 1%nat => GetProtocol r = (onepartyProtocol, None) /\ Validate r = None
  | 2%nat => GetProtocol r = (mpcProtocol, None) /\ Validate r = None
  | n =>
      GetProtocol r
      = (""%string,
         Some (Errorf ("expect 1 or 2 payloads, got " ++ strconv.Itoa (Z.of_nat n))))
      /\ Validate r
         = Some (Errorf ("expected one or two payloads, got "
                         ++ strconv.Itoa (Z.of_nat n)))
      /\ (exists e, snd (GetProtocol r) = Some e /\ InvalidPayloadCount e = true)
      /\ (exists e, Validate r = Some e /\ InvalidPayloadCount e = true)
  end.
Proof.
  unfold GetProtocol, Validate, payloadCount.
  destruct (length (AggregationServicePayloads r)) as [|[|[|n]]] eqn:E.
  - cbn. eauto 10.
  - cbn. auto.
  - cbn. auto.
  - replace (Z.of_nat (S (S (S n))) =? 1) with false
      by (symmetry; apply Z.eqb_neq; lia).
    replace (Z.of_nat (S (S (S n))) =? 2) with false
      by (symmetry; apply Z.eqb_neq; lia).
    cbn [negb andb snd]. eauto 10.
Qed.

(** *** Debug detection *)

(** C7.  On a report with at least one payload entry [IsDebugReport] returns
    true exactly when the cleartext field of the entry at index 0 is not
    empty, and false exactly when it is empty; two reports whose first
    entries have the same cleartext field get the same answer, whatever
    their other entries and fields are. *)
Theorem IsDebugReport_first_cleartext :
  forall (r : AggregatableReport) (p : AggregationServicePayload)
         (ps : list (option AggregationServicePayload)),
    AggregationServicePayloads r = Some p :: ps ->
    (IsDebugReport r = Returns true <-> DebugCleartextPayload p <> ""%string)
    /\ (IsDebugReport r = Returns false <-> DebugCleartextPayload p = ""%string)
    /\ (forall (r' : AggregatableReport) (p' : AggregationServicePayload)
               (ps' : list (option AggregationServicePayload)),
           AggregationServicePayloads r' = Some p' :: ps' ->
           DebugCleartextPayload p' = DebugCleartextPayload p ->
           IsDebugReport r' = IsDebugReport r).
Proof.
  intros r p ps E. unfold IsDebugReport. rewrite E.
  repeat split.
  - intros H Hempty. rewrite Hempty in H. discriminate.
  - intros Hne. destruct (String.eqb_spec (DebugCleartextPayload p) "");
      [contradiction|reflexivity].
  - intros H. destruct (String.eqb_spec (DebugCleartextPayload p) "");
      [assumption|discriminate].
  - intros ->. reflexivity.
  - intros r' p' ps' E' Hsame. rewrite E', Hsame. reflexivity.
Qed.

Lemma IsDebugReport_first_cleartext_witness :
  AggregationServicePayloads
    (mkReport "SI" [mkPayload "AQ==" "k1" "AQ=="; mkPayload "!" "" ""])
  = Some (mkPayload "AQ==" "k1" "AQ==") :: [Some (mkPayload "!" "" "")]
  /\ (IsDebugReport
        (mkReport "SI" [mkPayload "AQ==" "k1" "AQ=="; mkPayload "!" "" ""])
      = Returns true
      <-> DebugCleartextPayload (mkPayload "AQ==" "k1" "AQ==") <> ""%string).
Proof.
  split; [reflexivity|].
  exact (proj1 (IsDebugReport_first_cleartext
                  (mkReport "SI" [mkPayload "AQ==" "k1" "AQ=="; mkPayload "!" "" ""])
                  (mkPayload "AQ==" "k1" "AQ==") [Some (mkPayload "!" "" "")]
                  eq_refl)).
Defined.

(** C8.  [IsDebugReport] has no check of its own.  It returns a value only
    on a report that has at least one payload entry.  On a report with an
    empty payload sequence, and on no other, the access to index 0 is out of
    bounds and panics; so on a report with at least one entry the access
    never goes out of bounds.  The call then returns a value exactly when
    the entry at index 0 is not nil, and panics on the read through the nil
    pointer exactly when it is nil. *)
Theorem IsDebugReport_safe_iff_nonempty (r : AggregatableReport) :
  (forall b, IsDebugReport r = Returns b -> AggregationServicePayloads r <> [])
  /\ (IsDebugReport r = Panics indexOutOfRange <-> AggregationServicePayloads r = [])
  /\ ((exists b, IsDebugReport r = Returns b)
      <-> exists p ps, AggregationServicePayloads r = Some p :: ps)
  /\ (IsDebugReport r = Panics nilDereference
      <-> exists ps, AggregationServicePayloads r = None :: ps).
Proof.
  unfold IsDebugReport.
  destruct (AggregationServicePayloads r) as [|[p|] ps];
    (split; [intros b H; discriminate|]); repeat split;
    try discriminate; try reflexivity; eauto;
    try (intros (x & H); discriminate);
    try (intros (x & y & H); discriminate).
Qed.

(** The three outcomes of [IsDebugReport] on reports with no entry, with a
    nil entry, and with an entry that is not nil. *)
Example IsDebugReport_outcomes :
  IsDebugReport (mkReport "SI" []) = Panics indexOutOfRange
  /\ IsDebugReport
       {| SourceSite := ""; AttributionDestination := ""; SharedInfo := "SI";
          AggregationServicePayloads := [None];
          SourceDebugKey := ""; TriggerDebugKey := "" |}
     = Panics nilDereference
  /\ IsDebugReport (mkReport "SI" [mkPayload "AQ==" "k1" ""]) = Returns false.
Proof. repeat split. Qed.

(** *** The record codec *)

(** C2.  A well-formed record is serialized without error, and deserializing
    the result succeeds and gives back the same record: the same ciphertext
    bytes, the same shared info and the same key id. *)
Theorem Deserialize_Serialize (record : pb.AggregatablePayload) :
  pb.wellFormed record = true ->
  snd (SerializeAggregatablePayload record) = None
  /\ DeserializeAggregatablePayload (fst (SerializeAggregatablePayload record))
     = (Some record, None).
Proof.
  intros Hwf. unfold SerializeAggregatablePayload, DeserializeAggregatablePayload.
  pose proof (Marshal_wellFormed record Hwf) as Hm.
  pose proof (Unmarshal_Marshal record Hwf) as Hu.
  destruct (proto.Marshal record) as [bEncrypted err]. cbn [fst snd] in *.
  subst err. cbn [fst snd]. split; [reflexivity|].
  now rewrite DecodeString_EncodeToString, Hu.
Qed.

Lemma Deserialize_Serialize_witness :
  pb.wellFormed {| pb.Payload := Some {| pb.Data := [x01] |};
                   pb.SharedInfo := "SI"; pb.KeyId := "k1" |} = true
  /\ snd (SerializeAggregatablePayload
         {| pb.Payload := Some {| pb.Data := [x01] |};
            pb.SharedInfo := "SI"; pb.KeyId := "k1" |}) = None
  /\ DeserializeAggregatablePayload
       (fst (SerializeAggregatablePayload
               {| pb.Payload := Some {| pb.Data := [x01] |};
                  pb.SharedInfo := "SI"; pb.KeyId := "k1" |}))
     = (Some {| pb.Payload := Some {| pb.Data := [x01] |};
                pb.SharedInfo := "SI"; pb.KeyId := "k1" |}, None).
Proof.
  split; [reflexivity|].
  apply (Deserialize_Serialize
           {| pb.Payload := Some {| pb.Data := [x01] |};
              pb.SharedInfo := "SI"; pb.KeyId := "k1" |}).
  reflexivity.
Defined.

(** *** The payload extractor *)

Lemma selectPayload_selectedField (useCleartext : bool)
    (p : AggregationServicePayload) :
  selectPayload useCleartext p
  = (fst (base64.DecodeString (selectedField useCleartext p)),
     snd (base64.DecodeString (selectedField useCleartext p)),
     if useCleartext then ""%string else KeyID p).
Proof.
  unfold selectPayload, selectedField.
  destruct useCleartext;
    [destruct (base64.DecodeString (DebugCleartextPayload p))
    |destruct (base64.DecodeString (Payload p))]; reflexivity.
Qed.

(** The loop stops at the first entry that is nil or whose field does not
    decode, or appends one record per entry, in order. *)
Lemma extractLoop_spec (sharedInfo : string) (useCleartext : bool)
    (payloads : list (option AggregationServicePayload)) :
  forall output,
    extractLoop sharedInfo useCleartext payloads output
    = match firstDecodeError useCleartext payloads with
      | Panics msg => Panics msg
      | Returns (Some e) => Returns ([], Some e)
      | Returns None =>
          Returns (output ++ map (recordOf sharedInfo useCleartext) (objects payloads),
                   None)
      end.
Proof.
  induction payloads as [|[p|] ps IH]; intros output;
    cbn [extractLoop firstDecodeError objects map].
  - now rewrite app_nil_r.
  - rewrite selectPayload_selectedField.
    destruct (snd (base64.DecodeString (selectedField useCleartext p))) as [e|];
      [reflexivity|].
    rewrite IH. destruct (firstDecodeError useCleartext ps) as [[e|]|msg];
      try reflexivity.
    now rewrite <- app_assoc.
  - reflexivity.
Qed.

Lemma Extract_spec (r : AggregatableReport) (useCleartext : bool) :
  ExtractPayloadsFromAggregatableReport r useCleartext
  = match firstDecodeError useCleartext (AggregationServicePayloads r) with
    | Panics msg => Panics msg
    | Returns (Some e) => Returns ([], Some e)
    | Returns None =>
        Returns (map (recordOf (SharedInfo r) useCleartext)
                   (objects (AggregationServicePayloads r)), None)
    end.
Proof.
  unfold ExtractPayloadsFromAggregatableReport. now rewrite extractLoop_spec.
Qed.

Lemma firstError_None {A : Type} (f : A -> option error) (l : list A) :
  firstError f l = None <-> Forall (fun x => f x = None) l.
Proof.
  induction l as [|x l IH]; cbn [firstError].
  - split; [constructor|reflexivity].
  - destruct (f x) eqn:E.
    + split; [discriminate|]. intros H. inversion H; congruence.
    + rewrite IH. split; [now constructor|]. intros H. now inversion H.
Qed.

(** When nothing stops the extraction, no entry is nil and every selected
    field decodes. *)
Lemma firstDecodeError_None (useCleartext : bool)
    (payloads : list (option AggregationServicePayload)) :
  firstDecodeError useCleartext payloads = Returns None <->
  payloads = map Some (objects payloads)
  /\ Forall (fun p => snd (base64.DecodeString (selectedField useCleartext p)) = None)
       (objects payloads).
Proof.
  induction payloads as [|[p|] ps IH]; cbn [firstDecodeError objects map].
  - split; [split; [reflexivity|constructor]|reflexivity].
  - destruct (snd (base64.DecodeString (selectedField useCleartext p))) eqn:E.
    + split; [discriminate|]. intros [_ H]. inversion H; congruence.
    + rewrite IH. split.
      * intros [Hps Hall]. split; [now rewrite <- Hps|now constructor].
      * intros [Hps Hall]. injection Hps as Hps. split; [exact Hps|].
        now inversion Hall.
  - split; [discriminate|]. intros [H _].
    assert (Hl : length (None :: ps) = length (map Some (objects ps)))
      by now rewrite <- H.
    clear H. exfalso. cbn [length] in Hl. rewrite length_map in Hl.
    assert (Ho : forall l : list (option AggregationServicePayload),
               (length (objects l) <= length l)%nat).
    { induction l as [|[x|] l IHl]; cbn [objects length]; lia. }
    specialize (Ho ps). lia.
Qed.

(** The entry that stops the extraction with an error. *)
Lemma firstDecodeError_Some (useCleartext : bool)
    (payloads : list (option AggregationServicePayload)) (e : error) :
  firstDecodeError useCleartext payloads = Returns (Some e) ->
  exists p, Some p ∈ payloads
            /\ snd (base64.DecodeString (selectedField useCleartext p)) = Some e.
Proof.
  induction payloads as [|[p|] ps IH]; cbn [firstDecodeError]; try discriminate.
  destruct (snd (base64.DecodeString (selectedField useCleartext p))) as [e'|] eqn:E.
  - intros [= <-]. exists p. split; [constructor|exact E].
  - intros H. destruct (IH H) as (q & Hq & Hd). exists q.
    split; [now constructor|exact Hd].
Qed.

(** On entries none of which is nil, the first thing to stop the extraction
    is the first decoding error. *)
Lemma firstDecodeError_objects (useCleartext : bool)
    (ps : list AggregationServicePayload) :
  firstDecodeError useCleartext (map Some ps)
  = Returns (firstError
               (fun p => snd (base64.DecodeString (selectedField useCleartext p))) ps)
  /\ objects (map Some ps) = ps.
Proof.
  induction ps as [|p ps [IH1 IH2]]; cbn [map firstDecodeError firstError objects].
  - split; reflexivity.
  - rewrite IH1, IH2.
    now destruct (snd (base64.DecodeString (selectedField useCleartext p))).
Qed.

(** C3.  When the extraction succeeds it returns one record per payload
    entry, in the order of the entries; the record at position [i] carries
    the decoded bytes of the selected field of entry [i] (which did decode),
    the shared info of the report verbatim, and a key id that is empty when
    [useCleartext] is true and the [KeyID] of the entry when it is false. *)
Theorem Extract_records (r : AggregatableReport) (useCleartext : bool)
    (records : list pb.AggregatablePayload) :
  ExtractPayloadsFromAggregatableReport r useCleartext = Returns (records, None) ->
  length records = length (AggregationServicePayloads r)
  /\ forall (i : nat) (entry : option AggregationServicePayload),
       AggregationServicePayloads r !! i = Some entry ->
       exists p data,
         entry = Some p
         /\ base64.DecodeString (if useCleartext then DebugCleartextPayload p
                                 else Payload p) = (data, None)
         /\ records !! i
            = Some {| pb.Payload := Some {| pb.Data := data |};
                      pb.SharedInfo := SharedInfo r;
                      pb.KeyId := if useCleartext then ""%string else KeyID p |}.
Proof.
  rewrite Extract_spec.
  destruct (firstDecodeError useCleartext (AggregationServicePayloads r))
    as [[e|]|msg] eqn:E; try discriminate.
  intros [= <-].
  apply firstDecodeError_None in E as [Hobj Hall].
  split.
  - rewrite Hobj at 2. now rewrite !length_map.
  - intros i entry Hi. rewrite Hobj, list_lookup_fmap in Hi.
    destruct (objects (AggregationServicePayloads r) !! i) as [p|] eqn:Hp;
      [|discriminate].
    injection Hi as <-.
    rewrite Forall_forall in Hall.
    specialize (Hall p (list_elem_of_lookup_2 _ _ _ Hp)). cbn beta in Hall.
    exists p, (fst (base64.DecodeString (selectedField useCleartext p))).
    split; [reflexivity|]. split.
    + unfold selectedField in *.
      destruct (base64.DecodeString (if useCleartext then _ else _)); cbn in *.
      now subst.
    + rewrite list_lookup_fmap, Hp. reflexivity.
Qed.

Lemma Extract_records_witness :
  ExtractPayloadsFromAggregatableReport
    (mkReport "SI" [mkPayload "AQ==" "k1" ""; mkPayload "AQI=" "k2" ""]) false
  = Returns ([ {| pb.Payload := Some {| pb.Data := [x01] |};
                  pb.SharedInfo := "SI"; pb.KeyId := "k1" |};
               {| pb.Payload := Some {| pb.Data := [x01; x02] |};
                  pb.SharedInfo := "SI"; pb.KeyId := "k2" |} ], None)
  /\ length [ {| pb.Payload := Some {| pb.Data := [x01] |};
                 pb.SharedInfo := "SI"; pb.KeyId := "k1" |};
              {| pb.Payload := Some {| pb.Data := [x01; x02] |};
                 pb.SharedInfo := "SI"; pb.KeyId := "k2" |} ]
     = length (AggregationServicePayloads
                 (mkReport "SI" [mkPayload "AQ==" "k1" ""; mkPayload "AQI=" "k2" ""])).
Proof.
  split; [reflexivity|].
  exact (proj1 (Extract_records
                  (mkReport "SI" [mkPayload "AQ==" "k1" ""; mkPayload "AQI=" "k2" ""])
                  false _ eq_refl)).
Defined.

(** *** The encrypted channel does not read the cleartext field *)

Lemma extractLoop_encrypted_ext (sharedInfo : string)
    (ps1 ps2 : list (option AggregationServicePayload)) :
  Forall2 (fun e1 e2 =>
             match e1, e2 with
             | Some p1, Some p2 => Payload p1 = Payload p2 /\ KeyID p1 = KeyID p2
             | None, None => True
             | _, _ => False
             end) ps1 ps2 ->
  forall output,
    extractLoop sharedInfo false ps1 output = extractLoop sharedInfo false ps2 output.
Proof.
  induction 1 as [|[p1|] [p2|] ps1 ps2 H _ IH]; intros output;
    try reflexivity; try contradiction.
  destruct H as [Hp Hk].
  cbn [extractLoop selectPayload]. rewrite Hp, Hk.
  destruct (base64.DecodeString (Payload p2)) as [data [e|]]; [reflexivity|].
  apply IH.
Qed.

(** C9.  Two reports that are identical except in the cleartext fields of
    their payload entries give the same extraction result and the same
    transport map (or the same error) on the encrypted channel. *)
Theorem encrypted_channel_ignores_cleartext (r1 r2 : AggregatableReport) :
  sameExceptCleartext r1 r2 ->
  ExtractPayloadsFromAggregatableReport r1 false
  = ExtractPayloadsFromAggregatableReport r2 false
  /\ convertReport r1 false = convertReport r2 false
  /\ GetSerializedEncryptedRecords r1 = GetSerializedEncryptedRecords r2.
Proof.
  intros (_ & _ & Hsi & _ & _ & Hps).
  assert (HE : ExtractPayloadsFromAggregatableReport r1 false
               = ExtractPayloadsFromAggregatableReport r2 false).
  { unfold ExtractPayloadsFromAggregatableReport. rewrite Hsi.
    now apply extractLoop_encrypted_ext. }
  unfold GetSerializedEncryptedRecords, convertReport. now rewrite HE.
Qed.

Lemma encrypted_channel_ignores_cleartext_witness :
  sameExceptCleartext
    (mkReport "SI" [mkPayload "AQ==" "k1" ""; mkPayload "AQI=" "k2" "AQ=="])
    (mkReport "SI" [mkPayload "AQ==" "k1" "!not base64!"; mkPayload "AQI=" "k2" ""])
  /\ GetSerializedEncryptedRecords
       (mkReport "SI" [mkPayload "AQ==" "k1" ""; mkPayload "AQI=" "k2" "AQ=="])
     = GetSerializedEncryptedRecords
         (mkReport "SI" [mkPayload "AQ==" "k1" "!not base64!"; mkPayload "AQI=" "k2" ""]).
Proof.
  assert (H : sameExceptCleartext
                (mkReport "SI" [mkPayload "AQ==" "k1" ""; mkPayload "AQI=" "k2" "AQ=="])
                (mkReport "SI" [mkPayload "AQ==" "k1" "!not base64!";
                                mkPayload "AQI=" "k2" ""])).
  { unfold sameExceptCleartext. cbn. repeat split; repeat constructor. }
  split; [exact H|].
  exact (proj2 (proj2 (encrypted_channel_ignores_cleartext _ _ H))).
Defined.

(** *** The transport map *)

(** The loop of [convertReport] on records that all serialize: every position
    gets its key, and no other key of the map changes. *)
Lemma convertLoop_ok (records : list pb.AggregatablePayload) :
  forall (index : Z) (output : gmap string string),
    firstSerializeError records = None ->
    exists m,
      convertLoop index records output = (Some m, None)
      /\ (forall (i : nat) record,
             records !! i = Some record ->
             m !! strconv.Itoa (index + Z.of_nat i)
             = Some (fst (SerializeAggregatablePayload record)))
      /\ (forall k,
             (forall i : nat, (i < length records)%nat ->
                              k <> strconv.Itoa (index + Z.of_nat i)) ->
             m !! k = output !! k).
Proof.
  unfold firstSerializeError.
  induction records as [|record rest IH]; intros index output Hok.
  - exists output. cbn [convertLoop]. split; [reflexivity|]. split.
    + intros i record Hi. discriminate.
    + reflexivity.
  - cbn [convertLoop firstError] in *.
    destruct (SerializeAggregatablePayload record) as [payload [e|]] eqn:ES;
      cbn [snd] in Hok; [discriminate|].
    destruct (IH (index + 1) (<[strconv.Itoa index := payload]> output) Hok)
      as (m & Hm & Hin & Hout).
    exists m. split; [exact Hm|]. split.
    + intros [|i] rec Hi.
      * cbn in Hi. injection Hi as <-. rewrite ES. cbn [fst].
        rewrite Hout.
        -- replace (index + Z.of_nat 0) with index by lia.
           apply lookup_insert_eq.
        -- intros j _ E. apply Itoa_inj in E. lia.
      * cbn in Hi. specialize (Hin i rec Hi).
        replace (index + Z.of_nat (S i)) with (index + 1 + Z.of_nat i) by lia.
        exact Hin.
    + intros k Hk. rewrite Hout.
      * apply lookup_insert_ne. intros E. apply (Hk 0%nat); [cbn; lia|].
        rewrite <- E. f_equal. lia.
      * intros i Hi E. apply (Hk (S i)); [cbn [length]; lia|].
        rewrite E. f_equal. lia.
Qed.

(** The loop stops at the first record that does not serialize, and then
    returns the nil map. *)
Lemma convertLoop_error (records : list pb.AggregatablePayload) (e : error) :
  forall (index : Z) (output : gmap string string),
    firstSerializeError records = Some e ->
    convertLoop index records output = (None, Some e).
Proof.
  unfold firstSerializeError.
  induction records as [|record rest IH]; intros index output Herr;
    cbn [convertLoop firstError] in *; [discriminate|].
  destruct (SerializeAggregatablePayload record) as [payload [e'|]];
    cbn [snd] in Herr.
  - now injection Herr as ->.
  - now apply IH.
Qed.

Lemma convertReport_spec (r : AggregatableReport) (useCleartext : bool) :
  convertReport r useCleartext
  = match firstDecodeError useCleartext (AggregationServicePayloads r) with
    | Panics msg => Panics msg
    | Returns (Some e) => Returns (None, Some e)
    | Returns None =>
        Returns
          (convertLoop 0
             (map (recordOf (SharedInfo r) useCleartext)
                (objects (AggregationServicePayloads r)))
             ∅)
    end.
Proof.
  unfold convertReport. rewrite Extract_spec.
  now destruct (firstDecodeError useCleartext (AggregationServicePayloads r))
    as [[e|]|msg].
Qed.

Lemma NoDup_indexKeys (n : nat) : NoDup (indexKeys n).
Proof.
  unfold indexKeys. apply NoDup_fmap_2; [|apply NoDup_seq].
  intros i j E. apply Itoa_inj in E. lia.
Qed.

Lemma elem_of_indexKeys (n : nat) (k : string) :
  k ∈ indexKeys n <-> exists i : nat, (i < n)%nat /\ k = strconv.Itoa (Z.of_nat i).
Proof.
  unfold indexKeys. rewrite list_elem_of_fmap. split.
  - intros (i & -> & Hi). apply elem_of_seq in Hi. exists i. split; [lia|reflexivity].
  - intros (i & Hi & ->). exists i. split; [reflexivity|]. apply elem_of_seq. lia.
Qed.

(** The map built by a successful run: its keys are the decimal forms of the
    positions, one entry per record. *)
Lemma convertLoop_map (records : list pb.AggregatablePayload)
    (m : gmap string string) :
  convertLoop 0 records ∅ = (Some m, None) ->
  dom m = list_to_set (indexKeys (length records))
  /\ size m = length records
  /\ forall (i : nat) record,
       records !! i = Some record ->
       m !! strconv.Itoa (Z.of_nat i)
       = Some (fst (SerializeAggregatablePayload record)).
Proof.
  intros Hrun.
  destruct (firstSerializeError records) as [e|] eqn:Herr.
  { rewrite (convertLoop_error records e 0 ∅ Herr) in Hrun. discriminate. }
  destruct (convertLoop_ok records 0 ∅ Herr) as (m' & Hm' & Hin & Hout).
  rewrite Hm' in Hrun. injection Hrun as ->.
  assert (Hdom : dom m = list_to_set (indexKeys (length records))).
  { apply set_eq. intros k.
    rewrite elem_of_dom, elem_of_list_to_set, elem_of_indexKeys. split.
    - intros Hk.
      destruct (decide (k ∈ indexKeys (length records))) as [Hd|Hd];
        [now apply elem_of_indexKeys|].
      rewrite Hout, lookup_empty in Hk; [now destruct Hk|].
      intros i Hi ->. apply Hd, elem_of_indexKeys. exists i.
      split; [exact Hi|]. f_equal.
    - intros (i & Hi & ->).
      destruct (lookup_lt_is_Some_2 records i Hi) as [record Hrec].
      specialize (Hin i record Hrec). rewrite Z.add_0_l in Hin.
      rewrite Hin. eauto. }
  split; [exact Hdom|]. split.
  - rewrite <- size_dom, Hdom, size_list_to_set by apply NoDup_indexKeys.
    unfold indexKeys. now rewrite length_fmap, length_seq.
  - intros i record Hrec. exact (Hin i record Hrec).
Qed.

(** C5.  When [convertReport] succeeds it returns a map whose keys are
    exactly the decimal forms of the positions of the extracted records, one
    entry per record: the key "0" alone for a report with one payload entry,
    the keys "0" and "1" for one with two.  The value at the key of position
    [i] is the serialized record of entry [i]; with [useCleartext] false that
    record is made of the decoded [Payload] field of the entry, the shared
    info of the report and the [KeyID] of the entry. *)
Theorem convertReport_keys (r : AggregatableReport) (useCleartext : bool)
    (output : option (gmap string string)) :
  convertReport r useCleartext = Returns (output, None) ->
  exists m,
    output = Some m
    /\ dom m = list_to_set (indexKeys (length (AggregationServicePayloads r)))
    /\ size m = length (AggregationServicePayloads r)
    /\ (length (AggregationServicePayloads r) = 1%nat -> dom m = {[ "0"%string ]})
    /\ (length (AggregationServicePayloads r) = 2%nat ->
        dom m = {[ "0"%string; "1"%string ]})
    /\ (exists records,
          ExtractPayloadsFromAggregatableReport r useCleartext
          = Returns (records, None)
          /\ forall (i : nat) record,
               records !! i = Some record ->
               m !! strconv.Itoa (Z.of_nat i)
               = Some (fst (SerializeAggregatablePayload record)))
    /\ (useCleartext = false ->
        forall (i : nat) (entry : option AggregationServicePayload),
          AggregationServicePayloads r !! i = Some entry ->
          exists p,
            entry = Some p
            /\ m !! strconv.Itoa (Z.of_nat i)
               = Some (fst (SerializeAggregatablePayload
                              {| pb.Payload :=
                                   Some {| pb.Data :=
                                             fst (base64.DecodeString (Payload p)) |};
                                 pb.SharedInfo := SharedInfo r;
                                 pb.KeyId := KeyID p |}))).
Proof.
  rewrite convertReport_spec, Extract_spec.
  destruct (firstDecodeError useCleartext (AggregationServicePayloads r))
    as [[e|]|msg] eqn:Hd; try discriminate.
  apply firstDecodeError_None in Hd as [Hobj _].
  assert (Hlen : length (objects (AggregationServicePayloads r))
                 = length (AggregationServicePayloads r)).
  { rewrite Hobj at 2. now rewrite length_map. }
  destruct (convertLoop 0 _ ∅) as [[m|] [e|]] eqn:Hrun; try discriminate.
  - intros [= <-]. exists m. split; [reflexivity|].
    destruct (convertLoop_map _ m Hrun) as (Hdom & Hsize & Hval).
    rewrite length_map, Hlen in Hdom, Hsize.
    split; [exact Hdom|]. split; [exact Hsize|]. split; [|split; [|split]].
    + intros E. rewrite Hdom, E. cbn. apply set_eq. intros k. set_solver.
    + intros E. rewrite Hdom, E. cbn. apply set_eq. intros k. set_solver.
    + eexists. split; [reflexivity|exact Hval].
    + intros -> i entry Hi. rewrite Hobj, list_lookup_fmap in Hi.
      destruct (objects (AggregationServicePayloads r) !! i) as [p|] eqn:Hp;
        [|discriminate].
      injection Hi as <-. exists p. split; [reflexivity|].
      apply Hval. rewrite list_lookup_fmap, Hp. reflexivity.
  - intros _. exfalso.
    destruct (firstSerializeError
                (map (recordOf (SharedInfo r) useCleartext)
                   (objects (AggregationServicePayloads r)))) as [e|] eqn:Herr.
    + rewrite (convertLoop_error _ e 0 ∅ Herr) in Hrun. discriminate.
    + destruct (convertLoop_ok _ 0 ∅ Herr) as (m' & Hm' & _).
      rewrite Hm' in Hrun. discriminate.
Qed.

Lemma convertReport_keys_witness :
  convertReport
    (mkReport "SI" [mkPayload "AQ==" "k1" ""; mkPayload "AQI=" "k2" "%"]) false
  = Returns (Some {[ "0"%string := "CgMKAQESAlNJGgJrMQ=="%string;
                     "1"%string := "CgQKAgECEgJTSRoCazI="%string ]}, None)
  /\ exists m,
      Some ({[ "0"%string := "CgMKAQESAlNJGgJrMQ=="%string;
               "1"%string := "CgQKAgECEgJTSRoCazI="%string ]} : gmap string string)
      = Some m
      /\ dom m = {[ "0"%string; "1"%string ]}.
Proof.
  split; [reflexivity|].
  destruct (convertReport_keys
              (mkReport "SI" [mkPayload "AQ==" "k1" ""; mkPayload "AQI=" "k2" "%"])
              false _ eq_refl) as (m & Hm & _ & _ & _ & H2 & _).
  exists m. split; [exact Hm|]. apply H2. reflexivity.
Defined.

(** The end-to-end scenario of the specification. *)
Example end_to_end_scenario :
  let r := mkReport "SI" [mkPayload "AQ==" "k1" ""] in
  GetProtocol r = (onepartyProtocol, None)
  /\ IsDebugReport r = Returns false
  /\ proto.Marshal {| pb.Payload := Some {| pb.Data := [x01] |};
                      pb.SharedInfo := "SI"; pb.KeyId := "k1" |}
     = ([x0a; x03; x0a; x01; x01; x12; x02; x53; x49; x1a; x02; x6b; x31], None)
  /\ GetSerializedEncryptedRecords r
     = Returns (Some {[ "0"%string := "CgMKAQESAlNJGgJrMQ=="%string ]}, None).
Proof. repeat split. Qed.

(** A failure of the extraction or of the codec is reachable on either path,
    and so is a panic. *)
Example convertReport_decode_failure :
  convertReport (mkReport "SI" [mkPayload "AQ==" "k1" ""; mkPayload "AQ=" "k2" ""])
    false
  = Returns (None, Some (CorruptInputError 3)).
Proof. reflexivity. Qed.

Example convertReport_serialize_failure :
  convertReport
    (mkReport (String "255"%char "") [mkPayload "AQ==" "k1" ""; mkPayload "AQI=" "k2" ""])
    false
  = Returns (None, Some errInvalidUTF8).
Proof. reflexivity. Qed.

Example convertReport_nil_entry :
  convertReport
    {| SourceSite := ""; AttributionDestination := ""; SharedInfo := "SI";
       AggregationServicePayloads := [Some (mkPayload "AQ==" "k1" ""); None];
       SourceDebugKey := ""; TriggerDebugKey := "" |} false
  = Panics nilDereference
  /\ convertReport
       {| SourceSite := ""; AttributionDestination := ""; SharedInfo := "SI";
          AggregationServicePayloads := [Some (mkPayload "AQ=" "k1" ""); None];
          SourceDebugKey := ""; TriggerDebugKey := "" |} false
     = Returns (None, Some (CorruptInputError 3)).
Proof. split; reflexivity. Qed.

(** The ways [convertReport] can end. *)
Lemma convertReport_cases (r : AggregatableReport) (useCleartext : bool) :
  match firstDecodeError useCleartext (AggregationServicePayloads r) with
  | Panics msg =>
      ExtractPayloadsFromAggregatableReport r useCleartext = Panics msg
      /\ convertReport r useCleartext = Panics msg
  | Returns (Some e) =>
      ExtractPayloadsFromAggregatableReport r useCleartext = Returns ([], Some e)
      /\ convertReport r useCleartext = Returns (None, Some e)
  | Returns None =>
      exists records,
        ExtractPayloadsFromAggregatableReport r useCleartext
        = Returns (records, None)
        /\ records = map (recordOf (SharedInfo r) useCleartext)
                       (objects (AggregationServicePayloads r))
        /\ match firstSerializeError records with
           | Some e => convertReport r useCleartext = Returns (None, Some e)
           | None => exists m, convertReport r useCleartext = Returns (Some m, None)
           end
  end.
Proof.
  rewrite convertReport_spec, Extract_spec.
  destruct (firstDecodeError useCleartext (AggregationServicePayloads r))
    as [[e|]|msg]; [split; reflexivity| |split; reflexivity].
  eexists. split; [reflexivity|]. split; [reflexivity|].
  destruct (firstSerializeError _) as [e|] eqn:Herr.
  - now rewrite (convertLoop_error _ e 0 ∅ Herr).
  - destruct (convertLoop_ok _ 0 ∅ Herr) as (m & -> & _). eauto.
Qed.

(** [convertReport] returns a map or an error, not both and not neither. *)
Lemma convertReport_map_xor_error (r : AggregatableReport) (useCleartext : bool) :
  match convertReport r useCleartext with
  | Returns (Some _, Some _) => False
  | Returns (None, None) => False
  | _ => True
  end.
Proof.
  pose proof (convertReport_cases r useCleartext) as Hmain.
  destruct (firstDecodeError useCleartext (AggregationServicePayloads r))
    as [[e|]|msg].
  - destruct Hmain as [_ ->]. exact I.
  - destruct Hmain as (records & _ & _ & Hmain).
    destruct (firstSerializeError records) as [e|].
    + rewrite Hmain. exact I.
    + destruct Hmain as [m ->]. exact I.
  - destruct Hmain as [_ ->]. exact I.
Qed.

(** C6.  [convertReport] returns the first error and the nil map, never a
    map of the records processed before the failure: when the field of some
    entry does not decode (and no entry before it is nil) it returns the
    error of the first such entry, as the extraction does; otherwise, when
    the extraction has succeeded and some record does not serialize, it
    returns the error of the first such record; and only when neither
    happens does it return a map.  A panic of the extraction on a nil entry
    goes through.  The two entry points are [convertReport] at [false] and
    at [true]. *)
Theorem convertReport_first_error (r : AggregatableReport) (useCleartext : bool) :
  match firstDecodeError useCleartext (AggregationServicePayloads r) with
  | Panics msg =>
      ExtractPayloadsFromAggregatableReport r useCleartext = Panics msg
      /\ convertReport r useCleartext = Panics msg
  | Returns (Some e) =>
      ExtractPayloadsFromAggregatableReport r useCleartext = Returns ([], Some e)
      /\ convertReport r useCleartext = Returns (None, Some e)
  | Returns None =>
      exists records,
        ExtractPayloadsFromAggregatableReport r useCleartext
        = Returns (records, None)
        /\ match firstSerializeError records with
           | Some e => convertReport r useCleartext = Returns (None, Some e)
           | None => exists m, convertReport r useCleartext = Returns (Some m, None)
           end
  end
  /\ match convertReport r useCleartext with
     | Returns (Some _, Some _) => False
     | Returns (None, None) => False
     | _ => True
     end
  /\ GetSerializedEncryptedRecords r = convertReport r false
  /\ GetSerializedCleartextRecords r = convertReport r true.
Proof.
  pose proof (convertReport_cases r useCleartext) as Hmain.
  pose proof (convertReport_map_xor_error r useCleartext) as Hxor.
  split; [|split; [exact Hxor|split; reflexivity]].
  destruct (firstDecodeError useCleartext (AggregationServicePayloads r))
    as [[e|]|msg]; try exact Hmain.
  destruct Hmain as (records & HE & _ & Hmain). eauto.
Qed.

(** *** Errors of the pipeline and the payload count *)

Lemma Serialize_error (record : pb.AggregatablePayload) (e : error) :
  snd (SerializeAggregatablePayload record) = Some e -> e = errInvalidUTF8.
Proof.
  unfold SerializeAggregatablePayload.
  pose proof (Marshal_error record) as Hm.
  destruct (proto.Marshal record) as [b [e'|]]; cbn [snd] in *; [|discriminate].
  intros [= <-]. now apply Hm.
Qed.

Lemma Serialize_valid (record : pb.AggregatablePayload) :
  utf8.ValidString (pb.SharedInfo record) = true ->
  utf8.ValidString (pb.KeyId record) = true ->
  snd (SerializeAggregatablePayload record) = None.
Proof.
  intros Hs Hk. unfold SerializeAggregatablePayload.
  pose proof (Marshal_valid record Hs Hk) as Hm.
  destruct (proto.Marshal record) as [b err]; cbn [snd] in *. now subst err.
Qed.

Lemma firstError_Some {A : Type} (f : A -> option error) (l : list A) (e : error) :
  firstError f l = Some e -> exists x, x ∈ l /\ f x = Some e.
Proof.
  induction l as [|x l IH]; cbn [firstError]; [discriminate|].
  destruct (f x) as [e'|] eqn:E.
  - intros [= <-]. exists x. split; [constructor|exact E].
  - intros H. destruct (IH H) as (y & Hy & Hf). exists y.
    split; [now constructor|exact Hf].
Qed.


Lemma wellFormedFor_no_error (r : AggregatableReport) (useCleartext : bool) :
  wellFormedFor useCleartext r = true ->
  firstDecodeError useCleartext (AggregationServicePayloads r) = Returns None
  /\ firstSerializeError
       (map (recordOf (SharedInfo r) useCleartext)
          (objects (AggregationServicePayloads r)))
     = None.
Proof.
  unfold wellFormedFor. rewrite andb_true_iff. intros [Hsi Hall].
  unfold firstSerializeError.
  induction (AggregationServicePayloads r) as [|[p|] ps IH];
    cbn [forallb firstDecodeError objects map firstError] in *.
  - split; reflexivity.
  - apply andb_true_iff in Hall as [Hp Hps].
    apply andb_true_iff in Hp as [Hd Hk].
    destruct (snd (base64.DecodeString (selectedField useCleartext p)));
      [discriminate|].
    rewrite Serialize_valid; [now apply IH|exact Hsi|].
    cbn [recordOf pb.KeyId]. now destruct useCleartext.
  - discriminate.
Qed.

(** A report that is well formed for a channel is converted without error
    into a map with one entry per payload entry. *)
Lemma convertReport_wellFormedFor (r : AggregatableReport) (useCleartext : bool) :
  wellFormedFor useCleartext r = true ->
  exists m,
    convertReport r useCleartext = Returns (Some m, None)
    /\ size m = length (AggregationServicePayloads r)
    /\ dom m = list_to_set (indexKeys (length (AggregationServicePayloads r))).
Proof.
  intros Hwf. apply wellFormedFor_no_error in Hwf as [Hd Hs].
  rewrite convertReport_spec, Hd.
  apply firstDecodeError_None in Hd as [Hobj _].
  assert (Hlen : length (objects (AggregationServicePayloads r))
                 = length (AggregationServicePayloads r)).
  { rewrite Hobj at 2. now rewrite length_map. }
  destruct (convertLoop_ok _ 0 ∅ Hs) as (m & Hm & _).
  destruct (convertLoop_map _ m Hm) as (Hdom & Hsize & _).
  rewrite length_map, Hlen in Hdom, Hsize.
  exists m. rewrite Hm. auto.
Qed.



(** Neither entry point rejects a report with no payload entry or with
    three, which [Validate] rejects. *)
Example transport_accepts_invalid_counts :
  Validate (mkReport "SI" []) <> None
  /\ GetSerializedEncryptedRecords (mkReport "SI" []) = Returns (Some ∅, None)
  /\ Validate (mkReport "SI" [mkPayload "AQ==" "k1" ""; mkPayload "AQI=" "k2" "";
                              mkPayload "AQID" "k3" ""]) <> None
  /\ (exists m,
        GetSerializedEncryptedRecords
          (mkReport "SI" [mkPayload "AQ==" "k1" ""; mkPayload "AQI=" "k2" "";
                          mkPayload "AQID" "k3" ""]) = Returns (Some m, None)).
Proof.
  repeat split; try reflexivity; try discriminate.
  eexists. reflexivity.
Qed.

(** *** An empty cleartext field *)

(** C4, as stated, fails: on the report of the end-to-end scenario, whose
    only payload entry has an empty cleartext field, the cleartext entry
    point returns a map and no error. *)
Lemma empty_cleartext_counterexample :
  (exists p,
      Some p ∈ AggregationServicePayloads (mkReport "SI" [mkPayload "AQ==" "k1" ""])
      /\ DebugCleartextPayload p = ""%string)
  /\ GetSerializedCleartextRecords (mkReport "SI" [mkPayload "AQ==" "k1" ""])
     = Returns (Some {[ "0"%string := "CgASAlNJ"%string ]}, None).
Proof.
  split.
  - exists (mkPayload "AQ==" "k1" ""). split; [constructor|reflexivity].
  - reflexivity.
Qed.

Lemma Marshal_ok_valid (m : pb.AggregatablePayload) :
  snd (proto.Marshal m) = None ->
  utf8.ValidString (pb.SharedInfo m) = true
  /\ utf8.ValidString (pb.KeyId m) = true.
Proof.
  unfold proto.Marshal.
  cbn [proto.marshalAppendPointer pb.AggregatablePayload_Message
       pb.StandardCiphertext_Message proto.appendMessageInfo].
  unfold proto.appendStringNoZeroValidateUTF8.
  destruct (pb.Payload m); destruct (pb.SharedInfo m) as [|c1 s1] eqn:Es;
    destruct (pb.KeyId m) as [|c2 s2] eqn:Ek;
    repeat match goal with
           | |- context [negb (utf8.ValidString ?s)] =>
               destruct (utf8.ValidString s) eqn:?
           end; cbn; try discriminate; auto.
Qed.

Lemma Serialize_ok_valid (record : pb.AggregatablePayload) :
  snd (SerializeAggregatablePayload record) = None ->
  utf8.ValidString (pb.SharedInfo record) = true
  /\ utf8.ValidString (pb.KeyId record) = true.
Proof.
  pose proof (Marshal_ok_valid record) as Hv.
  unfold SerializeAggregatablePayload.
  destruct (proto.Marshal record) as [b [e|]]; cbn [snd] in *;
    [discriminate|auto].
Qed.

(** On a report none of whose payload entries is nil, what the cleartext
    entry point does. *)
Lemma convertReport_objects (r : AggregatableReport) (useCleartext : bool)
    (ps : list AggregationServicePayload) :
  AggregationServicePayloads r = map Some ps ->
  ExtractPayloadsFromAggregatableReport r useCleartext
  = match firstError
            (fun p => snd (base64.DecodeString (selectedField useCleartext p))) ps with
    | Some e => Returns ([], Some e)
    | None => Returns (map (recordOf (SharedInfo r) useCleartext) ps, None)
    end
  /\ convertReport r useCleartext
     = match firstError
               (fun p => snd (base64.DecodeString (selectedField useCleartext p))) ps with
       | Some e => Returns (None, Some e)
       | None =>
           Returns (convertLoop 0 (map (recordOf (SharedInfo r) useCleartext) ps) ∅)
       end.
Proof.
  intros E. rewrite convertReport_spec, Extract_spec, E.
  destruct (firstDecodeError_objects useCleartext ps) as [-> ->].
  now destruct (firstError _ ps).
Qed.

(** C4, amended.  On a report none of whose payload entries is nil, the
    cleartext entry point fails with a decoding error exactly when the
    cleartext field of some entry is malformed base64, and it returns a map
    exactly when the report has no entry, or the cleartext field of every
    entry is valid base64 and the shared info is valid UTF-8.  The empty
    string is not malformed: it decodes to zero bytes.  So an entry with an
    empty cleartext field does not make the call fail: a report whose
    cleartext fields are all empty and whose shared info is valid UTF-8 is
    converted into a map with one entry per payload; and whenever the
    extraction succeeds the record of such an entry has zero-length payload
    bytes, the shared info of the report and an empty key id, and its
    serialization is the value at the key of the entry. *)
Theorem cleartext_decode_error_iff (r : AggregatableReport)
    (ps : list AggregationServicePayload) :
  AggregationServicePayloads r = map Some ps ->
  ((exists output e,
       GetSerializedCleartextRecords r = Returns (output, Some e)
       /\ DecodeError e = true)
   <-> Exists (fun p => snd (base64.DecodeString (DebugCleartextPayload p)) <> None) ps)
  /\ ((exists m, GetSerializedCleartextRecords r = Returns (Some m, None))
      <-> ps = []
          \/ (utf8.ValidString (SharedInfo r) = true
              /\ Forall (fun p => snd (base64.DecodeString (DebugCleartextPayload p))
                                  = None) ps))
  /\ base64.DecodeString "" = ([], None)
  /\ (Forall (fun p => DebugCleartextPayload p = ""%string) ps ->
      utf8.ValidString (SharedInfo r) = true ->
      exists m,
        GetSerializedCleartextRecords r = Returns (Some m, None)
        /\ size m = length ps)
  /\ (forall (i : nat) (p : AggregationServicePayload),
        ps !! i = Some p ->
        DebugCleartextPayload p = ""%string ->
        (forall records,
            ExtractPayloadsFromAggregatableReport r true = Returns (records, None) ->
            records !! i
            = Some {| pb.Payload := Some {| pb.Data := [] |};
                      pb.SharedInfo := SharedInfo r;
                      pb.KeyId := "" |})
        /\ (forall m,
              GetSerializedCleartextRecords r = Returns (Some m, None) ->
              m !! strconv.Itoa (Z.of_nat i)
              = Some (fst (SerializeAggregatablePayload
                             {| pb.Payload := Some {| pb.Data := [] |};
                                pb.SharedInfo := SharedInfo r;
                                pb.KeyId := "" |})))).
Proof.
  intros E. unfold GetSerializedCleartextRecords.
  destruct (convertReport_objects r true ps E) as [HE HC].
  assert (Hsucc : utf8.ValidString (SharedInfo r) = true ->
                  Forall (fun p => snd (base64.DecodeString (DebugCleartextPayload p))
                                   = None) ps ->
                  exists m, convertReport r true = Returns (Some m, None)
                            /\ size m = length ps).
  { intros Hs Hall.
    assert (Hwf : wellFormedFor true r = true).
    { unfold wellFormedFor. rewrite Hs, E. cbn [andb].
      apply forallb_forall. intros entry Hin.
      apply in_map_iff in Hin as (p & <- & Hin).
      rewrite Forall_forall in Hall.
      specialize (Hall p (proj2 (list_elem_of_In _ _) Hin)).
      cbn [selectedField orb]. now rewrite Hall. }
    destruct (convertReport_wellFormedFor r true Hwf) as (m & Hm & Hsize & _).
    exists m. split; [exact Hm|]. now rewrite Hsize, E, length_map. }
  split; [|split; [|split; [reflexivity|split]]].
  - destruct (firstError _ ps) as [e|] eqn:Hd.
    + apply firstError_Some in Hd as (p & Hin & Hp). cbn [selectedField] in Hp.
      split.
      * intros _. apply Exists_exists. exists p. split; [exact Hin|].
        rewrite Hp. discriminate.
      * intros _. exists None, e. split; [exact HC|].
        apply DecodeString_error in Hp as [off ->]. reflexivity.
    + apply firstError_None in Hd. split.
      * intros (output & e & He & Hkind). exfalso.
        rewrite HC in He. injection He as He.
        destruct (firstSerializeError
                    (map (recordOf (SharedInfo r) true) ps)) as [e'|] eqn:Hs.
        -- rewrite (convertLoop_error _ e' 0 ∅ Hs) in He. injection He as _ <-.
           apply firstError_Some in Hs as (record & _ & Hrec).
           apply Serialize_error in Hrec. subst e'. discriminate.
        -- destruct (convertLoop_ok _ 0 ∅ Hs) as (m & Hm & _).
           rewrite Hm in He. discriminate.
      * intros Hex. apply Exists_exists in Hex as (p & Hin & Hp).
        rewrite Forall_forall in Hd. specialize (Hd p Hin).
        cbn [selectedField] in Hd. contradiction.
  - split.
    + intros [m Hm]. rewrite HC in Hm.
      destruct (firstError _ ps) as [e|] eqn:Hd; [discriminate|].
      injection Hm as Hm.
      destruct ps as [|p0 ps']; [now left|]. right.
      apply firstError_None in Hd. split; [|exact Hd].
      destruct (firstSerializeError
                  (map (recordOf (SharedInfo r) true) (p0 :: ps'))) as [e'|] eqn:Hs.
      * rewrite (convertLoop_error _ e' 0 ∅ Hs) in Hm. discriminate.
      * apply firstError_None in Hs. cbn [map] in Hs. inversion Hs as [|? ? H0 _].
        now apply Serialize_ok_valid in H0 as [H0 _].
    + intros [-> | [Hs Hall]].
      * exists ∅. unfold convertReport, ExtractPayloadsFromAggregatableReport.
        now rewrite E.
      * destruct (Hsucc Hs Hall) as (m & Hm & _). eauto.
  - intros Hempty Hs. apply Hsucc; [exact Hs|].
    eapply Forall_impl; [exact Hempty|]. intros p Hp. cbn beta in Hp.
    now rewrite Hp.
  - intros i p Hp Hempty.
    assert (Hrec : recordOf (SharedInfo r) true p
                   = {| pb.Payload := Some {| pb.Data := [] |};
                        pb.SharedInfo := SharedInfo r; pb.KeyId := "" |}).
    { unfold recordOf. cbn [selectedField]. now rewrite Hempty. }
    split.
    + intros records Hrecs. rewrite HE in Hrecs.
      destruct (firstError _ ps); [discriminate|]. injection Hrecs as <-.
      now rewrite list_lookup_fmap, Hp, <- Hrec.
    + intros m Hm. rewrite HC in Hm.
      destruct (firstError _ ps); [discriminate|]. injection Hm as Hm.
      destruct (convertLoop_map _ m Hm) as (_ & _ & Hval).
      rewrite <- Hrec. apply Hval. now rewrite list_lookup_fmap, Hp.
Qed.

Lemma cleartext_decode_error_iff_witness :
  AggregationServicePayloads
    (mkReport "SI" [mkPayload "AQ==" "k1" ""; mkPayload "AQI=" "k2" ""])
  = map Some [mkPayload "AQ==" "k1" ""; mkPayload "AQI=" "k2" ""]
  /\ exists m,
      GetSerializedCleartextRecords
        (mkReport "SI" [mkPayload "AQ==" "k1" ""; mkPayload "AQI=" "k2" ""])
      = Returns (Some m, None)
      /\ size m = length [mkPayload "AQ==" "k1" ""; mkPayload "AQI=" "k2" ""].
Proof.
  split; [reflexivity|].
  apply (proj1 (proj2 (proj2 (proj2
           (cleartext_decode_error_iff
              (mkReport "SI" [mkPayload "AQ==" "k1" ""; mkPayload "AQI=" "k2" ""])
              [mkPayload "AQ==" "k1" ""; mkPayload "AQI=" "k2" ""] eq_refl))))).
  - repeat constructor.
  - reflexivity.
Defined.

End ReportFacts.

(** ** Further properties of the report operations *)

Section MoreReportFacts.

Import reporttypes notions bounds.

(** *** Validation, protocol and debug detection together *)

(** X1.  [Validate] and [GetProtocol] accept the same reports: one returns
    no error exactly when the other returns no error, and then the protocol
    is one of the two tags. *)
Theorem Validate_iff_GetProtocol (r : AggregatableReport) :
  (Validate r = None <-> snd (GetProtocol r) = None)
  /\ (Validate r = None <->
      fst (GetProtocol r) = onepartyProtocol \/ fst (GetProtocol r) = mpcProtocol).
Proof.
  unfold Validate, GetProtocol, payloadCount.
  cbv zeta.
  destruct (Z.of_nat (length (AggregationServicePayloads r)) =? 1) eqn:E1;
    [cbn [negb andb fst snd]; unfold onepartyProtocol; intuition congruence|].
  destruct (Z.of_nat (length (AggregationServicePayloads r)) =? 2) eqn:E2;
    cbn [negb andb fst snd]; unfold onepartyProtocol, mpcProtocol;
    intuition (auto; try discriminate).
Qed.

(** X2.  [Validate] guards [IsDebugReport] against the empty payload
    sequence only.  On a report that [Validate] accepts, the access to index
    0 is never out of bounds; the call returns a value exactly when the entry
    at index 0 is not nil, and panics on the read through the nil pointer
    exactly when it is nil, which [Validate] does not exclude. *)
Theorem Validate_IsDebugReport (r : AggregatableReport) :
  Validate r = None ->
  IsDebugReport r <> Panics indexOutOfRange
  /\ ((exists b, IsDebugReport r = Returns b)
      <-> exists p ps, AggregationServicePayloads r = Some p :: ps)
  /\ (IsDebugReport r = Panics nilDereference
      <-> exists ps, AggregationServicePayloads r = None :: ps).
Proof.
  unfold Validate, IsDebugReport, payloadCount.
  destruct (AggregationServicePayloads r) as [|[p|] ps]; [discriminate| |];
    intros _; repeat split; try discriminate; try reflexivity; eauto;
    try (intros (x & H); discriminate);
    try (intros (x & y & H); discriminate).
Qed.

Lemma Validate_IsDebugReport_witness :
  Validate {| SourceSite := ""; AttributionDestination := ""; SharedInfo := "SI";
              AggregationServicePayloads := [None];
              SourceDebugKey := ""; TriggerDebugKey := "" |} = None
  /\ IsDebugReport
       {| SourceSite := ""; AttributionDestination := ""; SharedInfo := "SI";
          AggregationServicePayloads := [None];
          SourceDebugKey := ""; TriggerDebugKey := "" |}
     = Panics nilDereference.
Proof.
  split; [reflexivity|].
  apply (proj2 (proj2 (Validate_IsDebugReport
                         {| SourceSite := ""; AttributionDestination := "";
                            SharedInfo := "SI";
                            AggregationServicePayloads := [None];
                            SourceDebugKey := ""; TriggerDebugKey := "" |}
                         eq_refl))).
  exists []. reflexivity.
Defined.

(** *** When the codec fails *)

(** X3.  [SerializeAggregatablePayload] fails exactly when the shared info or
    the key id of the record is not valid UTF-8; the ciphertext bytes never
    make it fail.  When it fails it returns the empty string and the UTF-8
    error. *)
Theorem Serialize_fails_iff_invalid_utf8 (record : pb.AggregatablePayload) :
  (snd (SerializeAggregatablePayload record) = None <->
   utf8.ValidString (pb.SharedInfo record) = true
   /\ utf8.ValidString (pb.KeyId record) = true)
  /\ (snd (SerializeAggregatablePayload record) <> None ->
      SerializeAggregatablePayload record = (""%string, Some errInvalidUTF8)).
Proof.
  pose proof (Marshal_ok_valid record) as Hv.
  pose proof (Marshal_valid record) as Hok.
  pose proof (Marshal_error record) as He.
  unfold SerializeAggregatablePayload.
  destruct (proto.Marshal record) as [b [e|]]; cbn [snd] in *.
  - split.
    + split; [discriminate|]. intros [Hs Hk]. now specialize (Hok Hs Hk).
    + intros _. now rewrite (He e eq_refl).
  - split; [split; auto|]. intros H. now contradiction H.
Qed.

(** The codec round trip, for use below. *)
Lemma Deserialize_fst_Serialize (record : pb.AggregatablePayload) :
  pb.wellFormed record = true ->
  DeserializeAggregatablePayload (fst (SerializeAggregatablePayload record))
  = (Some record, None).
Proof.
  intros Hwf. unfold SerializeAggregatablePayload, DeserializeAggregatablePayload.
  pose proof (Marshal_wellFormed record Hwf) as Hm.
  pose proof (Unmarshal_Marshal record Hwf) as Hu.
  destruct (proto.Marshal record) as [bEncrypted err]. cbn [fst snd] in *.
  subst err. cbn [fst]. now rewrite DecodeString_EncodeToString, Hu.
Qed.

(** X4.  Two different well-formed records have different serialized
    strings: the transport string determines the ciphertext bytes, the shared
    info and the key id. *)
Theorem Serialize_injective (record1 record2 : pb.AggregatablePayload) :
  pb.wellFormed record1 = true -> pb.wellFormed record2 = true ->
  record1 <> record2 ->
  fst (SerializeAggregatablePayload record1)
  <> fst (SerializeAggregatablePayload record2).
Proof.
  intros H1 H2 Hne E. apply Hne.
  pose proof (Deserialize_fst_Serialize record1 H1) as D1.
  pose proof (Deserialize_fst_Serialize record2 H2) as D2.
  rewrite E in D1. congruence.
Qed.

Lemma Serialize_injective_witness :
  pb.wellFormed {| pb.Payload := Some {| pb.Data := [x01] |};
                   pb.SharedInfo := "SI"; pb.KeyId := "k1" |} = true
  /\ pb.wellFormed {| pb.Payload := Some {| pb.Data := [x01] |};
                      pb.SharedInfo := "SI"; pb.KeyId := "k2" |} = true
  /\ fst (SerializeAggregatablePayload
            {| pb.Payload := Some {| pb.Data := [x01] |};
               pb.SharedInfo := "SI"; pb.KeyId := "k1" |})
     <> fst (SerializeAggregatablePayload
               {| pb.Payload := Some {| pb.Data := [x01] |};
                  pb.SharedInfo := "SI"; pb.KeyId := "k2" |}).
Proof.
  split; [reflexivity|]. split; [reflexivity|].
  apply (Serialize_injective
           {| pb.Payload := Some {| pb.Data := [x01] |};
              pb.SharedInfo := "SI"; pb.KeyId := "k1" |}
           {| pb.Payload := Some {| pb.Data := [x01] |};
              pb.SharedInfo := "SI"; pb.KeyId := "k2" |});
    [reflexivity|reflexivity|discriminate].
Defined.

(** *** The shape of a transport string *)

Lemma encode_isBase64Char (v : Z) :
  0 <= v < 64 -> isBase64Char (base64.encode v) = true.
Proof.
  intros Hv.
  assert (Hall : forallb (fun n => isBase64Char (base64.encode (Z.of_nat n)))
                         (seq 0 64) = true) by (vm_compute; reflexivity).
  rewrite forallb_forall in Hall.
  specialize (Hall (Z.to_nat v)). rewrite Z2Nat.id in Hall by lia.
  apply Hall, in_seq. lia.
Qed.

Lemma Encode_chars (src : list byte) :
  forallb isBase64Char (base64.Encode src) = true.
Proof.
  induction src as [|b0|b0 b1|b0 b1 b2 rest IH] using list_ind3;
    cbn [base64.Encode forallb];
    rewrite ?encode_isBase64Char by apply sextet_range; auto.
Qed.

Lemma Encode_length (src : list byte) :
  length (base64.Encode src) = (4 * ((length src + 2) / 3))%nat.
Proof.
  induction src as [|b0|b0 b1|b0 b1 b2 rest IH] using list_ind3;
    try reflexivity.
  cbn [base64.Encode length]. rewrite IH.
  replace (S (S (S (length rest))) + 2)%nat with (1 * 3 + (length rest + 2))%nat
    by lia.
  rewrite Nat.div_add_l by lia. lia.
Qed.

Lemma isBase64Char_not_newline (c : byte) :
  isBase64Char c = true -> base64.isNewline c = false.
Proof. destruct c; try reflexivity; discriminate. Qed.

(** X5.  The string that [SerializeAggregatablePayload] returns is made of
    characters of the base64 alphabet and of padding only, its length is a
    multiple of four, and it holds no line break: it fits on one line. *)
Theorem Serialize_single_line (record : pb.AggregatablePayload) :
  let line := fst (SerializeAggregatablePayload record) in
  forallb isBase64Char (list_byte_of_string line) = true
  /\ (String.length line mod 4 = 0)%nat
  /\ forallb (fun c => negb (base64.isNewline c)) (list_byte_of_string line) = true.
Proof.
  assert (H : forall b,
             forallb isBase64Char (list_byte_of_string (base64.EncodeToString b)) = true
             /\ (String.length (base64.EncodeToString b) mod 4 = 0)%nat).
  { intros b. unfold base64.EncodeToString. split.
    - rewrite list_byte_of_string_of_list_byte. apply Encode_chars.
    - rewrite <- length_list_byte_of_string, list_byte_of_string_of_list_byte,
        Encode_length, Nat.mul_comm.
      apply Nat.Div0.mod_mul. }
  cbv zeta. unfold SerializeAggregatablePayload.
  destruct (proto.Marshal record) as [b [e|]]; cbn [fst].
  - repeat split.
  - destruct (H b) as [Hc Hl]. repeat split; [exact Hc|exact Hl|].
    rewrite forallb_forall in Hc |- *. intros c Hin.
    now rewrite (isBase64Char_not_newline c (Hc c Hin)).
Qed.

(** *** What the channels do not read *)

Lemma extractLoop_cleartext_ext (sharedInfo : string)
    (ps1 ps2 : list (option AggregationServicePayload)) :
  Forall2 (fun e1 e2 =>
             match e1, e2 with
             | Some p1, Some p2 =>
                 DebugCleartextPayload p1 = DebugCleartextPayload p2
             | None, None => True
             | _, _ => False
             end) ps1 ps2 ->
  forall output,
    extractLoop sharedInfo true ps1 output = extractLoop sharedInfo true ps2 output.
Proof.
  induction 1 as [|[p1|] [p2|] ps1 ps2 Hp _ IH]; intros output;
    try reflexivity; try contradiction.
  cbn [extractLoop selectPayload]. rewrite Hp.
  destruct (base64.DecodeString (DebugCleartextPayload p2)) as [data [e|]];
    [reflexivity|].
  apply IH.
Qed.

(** X6.  The cleartext channel reads neither the encrypted payload nor the
    key id: two reports that are identical except in the [Payload] and
    [KeyID] fields of their payload entries give the same extraction result
    and the same transport map (or the same error) with [useCleartext] true. *)
Theorem cleartext_channel_ignores_encrypted (r1 r2 : AggregatableReport) :
  sameExceptEncrypted r1 r2 ->
  ExtractPayloadsFromAggregatableReport r1 true
  = ExtractPayloadsFromAggregatableReport r2 true
  /\ GetSerializedCleartextRecords r1 = GetSerializedCleartextRecords r2.
Proof.
  intros (_ & _ & Hsi & _ & _ & Hps).
  assert (HE : ExtractPayloadsFromAggregatableReport r1 true
               = ExtractPayloadsFromAggregatableReport r2 true).
  { unfold ExtractPayloadsFromAggregatableReport. rewrite Hsi.
    now apply extractLoop_cleartext_ext. }
  unfold GetSerializedCleartextRecords, convertReport. now rewrite HE.
Qed.

Lemma cleartext_channel_ignores_encrypted_witness :
  sameExceptEncrypted
    (mkReport "SI" [mkPayload "AQ==" "k1" "AQI="])
    (mkReport "SI" [mkPayload "!not base64!" (String "255"%char "") "AQI="])
  /\ GetSerializedCleartextRecords (mkReport "SI" [mkPayload "AQ==" "k1" "AQI="])
     = GetSerializedCleartextRecords
         (mkReport "SI" [mkPayload "!not base64!" (String "255"%char "") "AQI="]).
Proof.
  assert (H : sameExceptEncrypted
                (mkReport "SI" [mkPayload "AQ==" "k1" "AQI="])
                (mkReport "SI" [mkPayload "!not base64!" (String "255"%char "")
                                  "AQI="])).
  { unfold sameExceptEncrypted. cbn. repeat split; repeat constructor. }
  split; [exact H|].
  exact (proj2 (cleartext_channel_ignores_encrypted _ _ H)).
Defined.

(** X7.  Nothing that this package computes from a report reads its source
    site, its attribution destination or its debug keys: two reports with
    the same shared info and the same payload entries get the same protocol,
    the same validation result, the same debug status, and the same records
    and transport maps on both channels. *)
Theorem operations_read_shared_info_and_payloads (r1 r2 : AggregatableReport) :
  SharedInfo r1 = SharedInfo r2 ->
  AggregationServicePayloads r1 = AggregationServicePayloads r2 ->
  GetProtocol r1 = GetProtocol r2
  /\ Validate r1 = Validate r2
  /\ IsDebugReport r1 = IsDebugReport r2
  /\ (forall useCleartext,
        ExtractPayloadsFromAggregatableReport r1 useCleartext
        = ExtractPayloadsFromAggregatableReport r2 useCleartext)
  /\ GetSerializedEncryptedRecords r1 = GetSerializedEncryptedRecords r2
  /\ GetSerializedCleartextRecords r1 = GetSerializedCleartextRecords r2.
Proof.
  intros Hsi Hps.
  unfold GetProtocol, Validate, IsDebugReport, GetSerializedEncryptedRecords,
    GetSerializedCleartextRecords, convertReport,
    ExtractPayloadsFromAggregatableReport, payloadCount.
  rewrite Hsi, Hps. repeat split.
Qed.

Lemma operations_read_shared_info_and_payloads_witness :
  GetSerializedEncryptedRecords
    {| SourceSite := "a.example"; AttributionDestination := "b.example";
       SharedInfo := "SI";
       AggregationServicePayloads := [Some (mkPayload "AQ==" "k1" "")];
       SourceDebugKey := "1"; TriggerDebugKey := "2" |}
  = GetSerializedEncryptedRecords (mkReport "SI" [mkPayload "AQ==" "k1" ""]).
Proof.
  exact (proj1 (proj2 (proj2 (proj2 (proj2
           (operations_read_shared_info_and_payloads
              {| SourceSite := "a.example"; AttributionDestination := "b.example";
                 SharedInfo := "SI";
                 AggregationServicePayloads := [Some (mkPayload "AQ==" "k1" "")];
                 SourceDebugKey := "1"; TriggerDebugKey := "2" |}
              (mkReport "SI" [mkPayload "AQ==" "k1" ""]) eq_refl eq_refl)))))).
Defined.

(** *** When the pipeline succeeds *)

(** What a successful run says about the report and about the map. *)
Lemma convertReport_Some_inv (r : AggregatableReport) (useCleartext : bool)
    (m : gmap string string) :
  convertReport r useCleartext = Returns (Some m, None) ->
  AggregationServicePayloads r = map Some (objects (AggregationServicePayloads r))
  /\ Forall (fun p => snd (base64.DecodeString (selectedField useCleartext p)) = None)
       (objects (AggregationServicePayloads r))
  /\ firstSerializeError
       (map (recordOf (SharedInfo r) useCleartext)
          (objects (AggregationServicePayloads r)))
     = None
  /\ size m = length (AggregationServicePayloads r)
  /\ forall (i : nat) p,
       AggregationServicePayloads r !! i = Some (Some p) ->
       m !! strconv.Itoa (Z.of_nat i)
       = Some (fst (SerializeAggregatablePayload
                      (recordOf (SharedInfo r) useCleartext p))).
Proof.
  rewrite convertReport_spec.
  destruct (firstDecodeError useCleartext (AggregationServicePayloads r))
    as [[e|]|msg] eqn:Hd; try discriminate.
  apply firstDecodeError_None in Hd as [Hobj Hall].
  intros [= Hrun]. split; [exact Hobj|]. split; [exact Hall|].
  destruct (firstSerializeError _) as [e|] eqn:Herr.
  { rewrite (convertLoop_error _ e 0 ∅ Herr) in Hrun. discriminate. }
  split; [reflexivity|].
  destruct (convertLoop_map _ m Hrun) as (_ & Hsize & Hval).
  rewrite length_map in Hsize. split.
  - rewrite Hsize. rewrite Hobj at 2. now rewrite length_map.
  - intros i p Hp. apply Hval. rewrite Hobj, list_lookup_fmap in Hp.
    rewrite list_lookup_fmap.
    destruct (objects (AggregationServicePayloads r) !! i); [|discriminate].
    cbn in Hp |- *. congruence.
Qed.

(** X8.  [convertReport] returns no error exactly when the report has no
    payload entry, or no entry is nil, the selected field of every entry is
    valid base64, and the shared info and (on the encrypted channel) every
    key id are valid UTF-8. *)
Theorem convertReport_succeeds_iff (r : AggregatableReport) (useCleartext : bool) :
  (exists output, convertReport r useCleartext = Returns (output, None))
  <-> AggregationServicePayloads r = [] \/ wellFormedFor useCleartext r = true.
Proof.
  split.
  - intros [output Hok].
    destruct output as [m|].
    + apply convertReport_Some_inv in Hok as (Hobj & Hd & Hs & _).
      destruct (AggregationServicePayloads r) as [|e0 es] eqn:Eps; [now left|].
      right. unfold wellFormedFor. rewrite Eps, Hobj.
      apply firstError_None in Hs.
      rewrite Forall_forall in Hd. rewrite Forall_forall in Hs.
      assert (Hrec : forall p, p ∈ objects (e0 :: es) ->
                 utf8.ValidString (SharedInfo r) = true
                 /\ utf8.ValidString (if useCleartext then ""%string else KeyID p)
                    = true).
      { intros p Hp. apply (Serialize_ok_valid (recordOf (SharedInfo r) useCleartext p)).
        apply Hs. apply list_elem_of_In, in_map, list_elem_of_In, Hp. }
      destruct (objects (e0 :: es)) as [|p0 ps] eqn:Eo; [discriminate|].
      apply andb_true_iff. split.
      * apply (Hrec p0). constructor.
      * apply forallb_forall. intros entry Hin.
        apply in_map_iff in Hin as (p & <- & Hin).
        apply list_elem_of_In in Hin.
        apply andb_true_iff. split.
        -- now rewrite (Hd p Hin).
        -- destruct (Hrec p Hin) as [_ Hk]. now destruct useCleartext.
    + pose proof (convertReport_map_xor_error r useCleartext) as Hc.
      rewrite Hok in Hc. contradiction.
  - intros [Hnil|Hwf].
    + exists (Some ∅). unfold convertReport, ExtractPayloadsFromAggregatableReport.
      now rewrite Hnil.
    + destruct (convertReport_wellFormedFor r useCleartext Hwf) as (m & -> & _).
      eauto.
Qed.

(** *** The size of the decoded payload *)

Lemma length_quantumBytes (dbuf : list Z) :
  length (base64.quantumBytes dbuf) = Nat.min (length dbuf - 1) 3.
Proof. unfold base64.quantumBytes. now rewrite length_firstn. Qed.

Lemma fst_afterPadding (src : list byte) (si : Z) (dbuf : list Z) :
  fst (base64.afterPadding src si dbuf) = base64.quantumBytes dbuf.
Proof.
  unfold base64.afterPadding. now destruct (base64.skipNewlines src si).
Qed.

(** The decoder writes at most three bytes for four characters read. *)
Lemma decodeLoop_length (src : list byte) :
  forall (si : Z) (dbuf : list Z),
    (length dbuf <= 3)%nat ->
    (4 * length (fst (base64.decodeLoop src si dbuf))
     <= 3 * (length src + length dbuf))%nat.
Proof.
  induction src as [|c src IH]; intros si dbuf Hd; cbn [base64.decodeLoop].
  - destruct dbuf; cbn; lia.
  - destruct (negb (base64.decodeMap c =? 255)).
    + destruct (length (dbuf ++ [base64.decodeMap c]) =? 4)%nat eqn:E4.
      * apply Nat.eqb_eq in E4. specialize (IH (si + 1) [] ltac:(cbn; lia)).
        destruct (base64.decodeLoop src (si + 1) []) as [dst err].
        cbn [fst length] in *. rewrite length_app, length_quantumBytes, E4.
        rewrite length_app in E4. cbn [length] in *. lia.
      * apply Nat.eqb_neq in E4. rewrite length_app in E4. cbn [length] in E4.
        specialize (IH (si + 1) (dbuf ++ [base64.decodeMap c])).
        rewrite length_app in IH. cbn [length] in *. lia.
    + destruct (base64.isNewline c).
      { specialize (IH (si + 1) dbuf Hd). cbn [length]. lia. }
      destruct (negb (Byte.eqb c base64.padChar)); [cbn; lia|].
      destruct (length dbuf) as [|[|[|n]]] eqn:El; [cbn; lia|cbn; lia| |].
      * destruct (base64.skipNewlines src (si + 1)) as [[|c2 src3] si2];
          [cbn; lia|].
        destruct (negb (Byte.eqb c2 base64.padChar)); [cbn; lia|].
        rewrite fst_afterPadding, length_quantumBytes, El. cbn [length]. lia.
      * rewrite fst_afterPadding, length_quantumBytes, El. cbn [length]. lia.
Qed.

(** X9.  A payload decoded by the extractor is at most three quarters as
    long as the base64 field it was decoded from. *)
Theorem Extract_payload_size (r : AggregatableReport) (useCleartext : bool)
    (records : list pb.AggregatablePayload) :
  ExtractPayloadsFromAggregatableReport r useCleartext = Returns (records, None) ->
  forall (i : nat) (p : AggregationServicePayload) record,
    AggregationServicePayloads r !! i = Some (Some p) ->
    records !! i = Some record ->
    exists sc,
      pb.Payload record = Some sc
      /\ (4 * length (pb.Data sc)
          <= 3 * String.length (if useCleartext then DebugCleartextPayload p
                                else Payload p))%nat.
Proof.
  rewrite Extract_spec.
  destruct (firstDecodeError useCleartext (AggregationServicePayloads r))
    as [[e|]|msg] eqn:Hd; try discriminate.
  apply firstDecodeError_None in Hd as [Hobj _].
  intros [= <-] i p record Hp. rewrite Hobj, list_lookup_fmap in Hp.
  rewrite list_lookup_fmap.
  destruct (objects (AggregationServicePayloads r) !! i) as [p'|]; [|discriminate].
  injection Hp as ->. intros [= <-]. eexists. split; [reflexivity|].
  cbn [pb.Data]. unfold base64.DecodeString, selectedField.
  rewrite <- length_list_byte_of_string.
  pose proof (decodeLoop_length
                (list_byte_of_string
                   (if useCleartext then DebugCleartextPayload p else Payload p))
                0 [] ltac:(cbn; lia)) as H.
  cbn [length] in H. lia.
Qed.

Lemma Extract_payload_size_witness :
  ExtractPayloadsFromAggregatableReport
    (mkReport "SI" [mkPayload "AQID" "k1" ""]) false
  = Returns ([ {| pb.Payload := Some {| pb.Data := [x01; x02; x03] |};
                  pb.SharedInfo := "SI"; pb.KeyId := "k1" |} ], None)
  /\ exists sc,
      pb.Payload {| pb.Payload := Some {| pb.Data := [x01; x02; x03] |};
                    pb.SharedInfo := "SI"; pb.KeyId := "k1" |} = Some sc
      /\ (4 * length (pb.Data sc) <= 3 * String.length "AQID")%nat.
Proof.
  split; [reflexivity|].
  exact (Extract_payload_size (mkReport "SI" [mkPayload "AQID" "k1" ""]) false
           _ eq_refl 0%nat (mkPayload "AQID" "k1" "")
           {| pb.Payload := Some {| pb.Data := [x01; x02; x03] |};
              pb.SharedInfo := "SI"; pb.KeyId := "k1" |} eq_refl eq_refl).
Defined.

(** *** The transport map read back *)

Lemma lengthsFit_inv (r : AggregatableReport) :
  lengthsFit r = true ->
  Z.of_nat (String.length (SharedInfo r)) <= pb.MaxInt
  /\ forall p, Some p ∈ AggregationServicePayloads r ->
       Z.of_nat (String.length (Payload p)) <= pb.MaxInt
       /\ Z.of_nat (String.length (KeyID p)) <= pb.MaxInt
       /\ Z.of_nat (String.length (DebugCleartextPayload p)) <= pb.MaxInt.
Proof.
  unfold lengthsFit, fitsInt. rewrite andb_true_iff, forallb_forall, Z.leb_le.
  intros [Hs Hall]. split; [exact Hs|].
  intros p Hp. apply list_elem_of_In, Hall in Hp.
  rewrite !andb_true_iff, !Z.leb_le in Hp. tauto.
Qed.

(** X10.  What the pipeline writes can be read back.  When [convertReport]
    succeeds on a report whose strings have lengths that Go strings can
    have, the value at the key of every position deserializes, without
    error, to the record of the payload entry at that position: the decoded
    bytes of its selected field, the shared info of the report unmodified,
    and its key id (empty on the cleartext channel). *)
Theorem transport_values_deserialize (r : AggregatableReport)
    (useCleartext : bool) (m : gmap string string) :
  lengthsFit r = true ->
  convertReport r useCleartext = Returns (Some m, None) ->
  forall (i : nat) (p : AggregationServicePayload),
    AggregationServicePayloads r !! i = Some (Some p) ->
    exists line,
      m !! strconv.Itoa (Z.of_nat i) = Some line
      /\ DeserializeAggregatablePayload line
         = (Some {| pb.Payload :=
                      Some {| pb.Data :=
                                fst (base64.DecodeString
                                       (if useCleartext then DebugCleartextPayload p
                                        else Payload p)) |};
                    pb.SharedInfo := SharedInfo r;
                    pb.KeyId := if useCleartext then ""%string else KeyID p |},
            None).
Proof.
  intros Hfit Hrun i p Hp.
  apply lengthsFit_inv in Hfit as [Hls Hlp].
  specialize (Hlp p (list_elem_of_lookup_2 _ _ _ Hp)) as (Hl1 & Hl2 & Hl3).
  apply convertReport_Some_inv in Hrun as (Hobj & _ & Hs & _ & Hval).
  eexists. split; [apply Hval, Hp|].
  apply firstError_None in Hs. rewrite Forall_forall in Hs.
  assert (Hin : p ∈ objects (AggregationServicePayloads r)).
  { rewrite Hobj, list_lookup_fmap in Hp.
    destruct (objects (AggregationServicePayloads r) !! i) as [p'|] eqn:Hp';
      [|discriminate].
    injection Hp as ->. apply (list_elem_of_lookup_2 _ _ _ Hp'). }
  assert (Hok : snd (SerializeAggregatablePayload
                       (recordOf (SharedInfo r) useCleartext p)) = None).
  { apply Hs. apply list_elem_of_In, in_map, list_elem_of_In, Hin. }
  apply Serialize_ok_valid in Hok as [Hvs Hvk].
  apply (Deserialize_fst_Serialize (recordOf (SharedInfo r) useCleartext p)).
  unfold pb.wellFormed. cbn [recordOf pb.SharedInfo pb.KeyId pb.Payload pb.Data] in *.
  rewrite Hvs, Hvk. cbn [andb].
  rewrite !andb_true_iff, !Z.leb_le. repeat split.
  - exact Hls.
  - destruct useCleartext; [cbn; unfold pb.MaxInt; lia|exact Hl2].
  - pose proof (decodeLoop_length
                  (list_byte_of_string (selectedField useCleartext p)) 0 []
                  ltac:(cbn; lia)) as Hlen.
    rewrite length_list_byte_of_string in Hlen. cbn [length] in Hlen.
    unfold base64.DecodeString. unfold selectedField in *.
    destruct useCleartext; lia.
Qed.

Lemma transport_values_deserialize_witness :
  lengthsFit (mkReport "SI" [mkPayload "AQ==" "k1" ""; mkPayload "AQI=" "k2" ""])
  = true
  /\ exists line,
      ({[ "0"%string := "CgMKAQESAlNJGgJrMQ=="%string;
          "1"%string := "CgQKAgECEgJTSRoCazI="%string ]} : gmap string string)
        !! strconv.Itoa (Z.of_nat 1) = Some line
      /\ DeserializeAggregatablePayload line
         = (Some {| pb.Payload := Some {| pb.Data := [x01; x02] |};
                    pb.SharedInfo := "SI"; pb.KeyId := "k2" |}, None).
Proof.
  split; [reflexivity|].
  exact (transport_values_deserialize
           (mkReport "SI" [mkPayload "AQ==" "k1" ""; mkPayload "AQI=" "k2" ""])
           false _ eq_refl eq_refl 1%nat (mkPayload "AQI=" "k2" "") eq_refl).
Defined.

(** X11.  The protocol and the transport map agree on a valid report: when
    [Validate] accepts the report and [convertReport] succeeds, the protocol
    is one-party exactly when the map has one entry and mpc exactly when it
    has two. *)
Theorem protocol_matches_map_size (r : AggregatableReport) (useCleartext : bool)
    (m : gmap string string) :
  Validate r = None ->
  convertReport r useCleartext = Returns (Some m, None) ->
  (fst (GetProtocol r) = onepartyProtocol <-> size m = 1%nat)
  /\ (fst (GetProtocol r) = mpcProtocol <-> size m = 2%nat).
Proof.
  intros Hv Hrun.
  apply convertReport_Some_inv in Hrun as (_ & _ & _ & Hsize & _).
  rewrite Hsize. revert Hv. unfold Validate, GetProtocol, payloadCount.
  destruct (length (AggregationServicePayloads r)) as [|[|[|n]]].
  - discriminate.
  - intros _. cbn. split; split; try reflexivity; discriminate.
  - intros _. cbn. split; split; try reflexivity; discriminate.
  - replace (Z.of_nat (S (S (S n))) =? 1) with false
      by (symmetry; apply Z.eqb_neq; lia).
    replace (Z.of_nat (S (S (S n))) =? 2) with false
      by (symmetry; apply Z.eqb_neq; lia).
    discriminate.
Qed.

Lemma protocol_matches_map_size_witness :
  Validate (mkReport "SI" [mkPayload "AQ==" "k1" ""; mkPayload "AQI=" "k2" ""]) = None
  /\ (fst (GetProtocol
             (mkReport "SI" [mkPayload "AQ==" "k1" ""; mkPayload "AQI=" "k2" ""]))
      = mpcProtocol
      <-> size ({[ "0"%string := "CgMKAQESAlNJGgJrMQ=="%string;
                   "1"%string := "CgQKAgECEgJTSRoCazI="%string ]}
                : gmap string string) = 2%nat).
Proof.
  split; [reflexivity|].
  exact (proj2 (protocol_matches_map_size
                  (mkReport "SI" [mkPayload "AQ==" "k1" ""; mkPayload "AQI=" "k2" ""])
                  false _ eq_refl eq_refl)).
Defined.

(** *** What the deserializer returns *)

(** A property of the message that every field decoder keeps is kept by the
    parser, and the errors of the parser are those of the field decoders or
    the wire-format error. *)
Lemma unmarshalPointer_invariant {M : Type}
    (coder : Z -> Z -> list byte -> M -> proto.fieldOutcome M)
    (P : M -> Prop) (E : error -> Prop) :
  (forall num wtyp b m m' rest,
      P m -> coder num wtyp b m = proto.FieldOk m' rest -> P m') ->
  (forall num wtyp b m e, coder num wtyp b m = proto.FieldErr e -> E e) ->
  E errDecode ->
  forall (fuel : nat) (b : list byte) (m : M),
    P m ->
    P (fst (proto.unmarshalPointer coder fuel b m))
    /\ forall e, snd (proto.unmarshalPointer coder fuel b m) = Some e -> E e.
Proof.
  intros Hok Herr Hdec.
  assert (Hfail : forall m : M, P m ->
             P (fst (m, Some errDecode))
             /\ forall e, snd (m, Some errDecode) = Some e -> E e).
  { intros m Hm. split; [exact Hm|]. cbn. now intros e [= <-]. }
  induction fuel as [|fuel IH]; intros b m Hm; cbn [proto.unmarshalPointer].
  - destruct b; [split; [exact Hm|discriminate]|now apply Hfail].
  - destruct b as [|c b]; [split; [exact Hm|discriminate]|].
    destruct (protowire.ConsumeVarint (c :: b)) as [[tag b1]|]; [|now apply Hfail].
    destruct (_ || _); [now apply Hfail|].
    destruct (_ =? protowire.EndGroupType); [now apply Hfail|].
    destruct (coder _ _ b1 m) as [m' rest|e|] eqn:Ec.
    + apply IH. eapply Hok; eauto.
    + split; [exact Hm|]. cbn. intros e' [= <-]. eapply Herr; eauto.
    + destruct (protowire.ConsumeFieldValue _ _ b1); [now apply IH|now apply Hfail].
Qed.

Lemma ValidString_string_of_list_byte (v : list byte) :
  utf8.ValidString (string_of_list_byte v) = utf8.Valid v.
Proof.
  unfold utf8.ValidString. now rewrite list_byte_of_string_of_list_byte.
Qed.

(** A parsed record has valid strings, and parsing fails only with the
    wire-format error or the UTF-8 error. *)
Lemma Unmarshal_AggregatablePayload (b : list byte) :
  (utf8.ValidString (pb.SharedInfo (fst (proto.Unmarshal b))) = true
   /\ utf8.ValidString (pb.KeyId (fst (proto.Unmarshal b))) = true)
  /\ forall e, snd (proto.Unmarshal (M:=pb.AggregatablePayload) b) = Some e ->
               e = errDecode \/ e = errInvalidUTF8.
Proof.
  unfold proto.Unmarshal.
  apply (unmarshalPointer_invariant proto.unmarshalField
           (fun m => utf8.ValidString (pb.SharedInfo m) = true
                     /\ utf8.ValidString (pb.KeyId m) = true)
           (fun e => e = errDecode \/ e = errInvalidUTF8)).
  - intros num wtyp b0 m m' rest [Hs Hk].
    cbn [proto.unmarshalField pb.AggregatablePayload_Message].
    unfold proto.consumeMessageInfo, proto.consumeStringValidateUTF8.
    destruct (num =? 1).
    { destruct (negb _); [discriminate|].
      destruct (protowire.ConsumeBytes b0) as [[v rest']|]; [|discriminate].
      destruct (proto.unmarshalPointer _ _ v _) as [s [e|]]; [discriminate|].
      intros [= <- _]. cbn. auto. }
    destruct (num =? 2).
    { destruct (negb _); [discriminate|].
      destruct (protowire.ConsumeBytes b0) as [[v rest']|]; [|discriminate].
      destruct (utf8.Valid v) eqn:Ev; cbn [negb]; [|discriminate].
      intros [= <- _]. cbn [pb.SharedInfo pb.KeyId].
      now rewrite ValidString_string_of_list_byte. }
    destruct (num =? 3); [|discriminate].
    destruct (negb _); [discriminate|].
    destruct (protowire.ConsumeBytes b0) as [[v rest']|]; [|discriminate].
    destruct (utf8.Valid v) eqn:Ev; cbn [negb]; [|discriminate].
    intros [= <- _]. cbn [pb.SharedInfo pb.KeyId].
    now rewrite ValidString_string_of_list_byte.
  - intros num wtyp b0 m e.
    cbn [proto.unmarshalField pb.AggregatablePayload_Message].
    unfold proto.consumeMessageInfo, proto.consumeStringValidateUTF8.
    destruct (num =? 1).
    { destruct (negb _); [discriminate|].
      destruct (protowire.ConsumeBytes b0) as [[v rest']|]; [|intros [= <-]; auto].
      pose proof (unmarshalPointer_invariant
                    (proto.unmarshalField (M:=pb.StandardCiphertext))
                    (fun _ => True) (fun e => e = errDecode)) as Hsub.
      specialize (Hsub ltac:(auto)).
      assert (Hcoder : forall num wtyp b (m : pb.StandardCiphertext) e,
                 proto.unmarshalField num wtyp b m = proto.FieldErr e ->
                 e = errDecode).
      { intros num' wtyp' b' m' e'.
        cbn [proto.unmarshalField pb.StandardCiphertext_Message].
        unfold proto.consumeBytesNoZero.
        destruct (num' =? 1); [|discriminate].
        destruct (negb _); [discriminate|].
        destruct (protowire.ConsumeBytes b') as [[v' r']|]; [discriminate|].
        now intros [= <-]. }
      specialize (Hsub Hcoder eq_refl (length v) v
                    (match pb.Payload m with Some s => s | None => proto.zero end) I)
        as [_ Hsub].
      destruct (proto.unmarshalPointer _ _ v _) as [s [e'|]]; [|discriminate].
      intros [= <-]. left. now apply Hsub. }
    destruct (num =? 2).
    { destruct (negb _); [discriminate|].
      destruct (protowire.ConsumeBytes b0) as [[v rest']|]; [|intros [= <-]; auto].
      destruct (negb (utf8.Valid v)); [intros [= <-]; auto|discriminate]. }
    destruct (num =? 3); [|discriminate].
    destruct (negb _); [discriminate|].
    destruct (protowire.ConsumeBytes b0) as [[v rest']|]; [|intros [= <-]; auto].
    destruct (negb (utf8.Valid v)); [intros [= <-]; auto|discriminate].
  - now left.
  - split; reflexivity.
Qed.

(** X12.  [DeserializeAggregatablePayload] returns either a record and no
    error, or no record and an error.  The error is the one of the base64
    decoder, a [CorruptInputError], when the line is not valid base64, and
    otherwise the wire-format error or the UTF-8 error of the parser; it is
    never a payload-count error. *)
Theorem Deserialize_outcomes (line : string) :
  match DeserializeAggregatablePayload line with
  | (Some record, None) => snd (base64.DecodeString line) = None
  | (None, Some e) =>
      InvalidPayloadCount e = false
      /\ ((snd (base64.DecodeString line) = Some e
           /\ exists off, e = CorruptInputError off)
          \/ (snd (base64.DecodeString line) = None
              /\ (e = errDecode \/ e = errInvalidUTF8)))
  | _ => False
  end.
Proof.
  unfold DeserializeAggregatablePayload.
  pose proof (DecodeString_error line) as Hd.
  destruct (base64.DecodeString line) as [bsc [e|]]; cbn [snd] in *.
  - destruct (Hd e eq_refl) as [off ->]. split; [reflexivity|]. left. eauto.
  - pose proof (Unmarshal_AggregatablePayload bsc) as [_ Hu].
    destruct (proto.Unmarshal bsc) as [payload [e|]]; cbn [snd] in *;
      [|reflexivity].
    destruct (Hu e eq_refl) as [-> | ->]; split; auto.
Qed.

(** X13.  A record that [DeserializeAggregatablePayload] returns has a
    shared info and a key id that are valid UTF-8, so that
    [SerializeAggregatablePayload] accepts it. *)
Theorem Deserialize_result_serializes (line : string)
    (record : pb.AggregatablePayload) :
  DeserializeAggregatablePayload line = (Some record, None) ->
  utf8.ValidString (pb.SharedInfo record) = true
  /\ utf8.ValidString (pb.KeyId record) = true
  /\ snd (SerializeAggregatablePayload record) = None.
Proof.
  unfold DeserializeAggregatablePayload.
  destruct (base64.DecodeString line) as [bsc [e|]]; [discriminate|].
  pose proof (Unmarshal_AggregatablePayload bsc) as [[Hs Hk] _].
  destruct (proto.Unmarshal bsc) as [payload [e|]]; [discriminate|].
  intros [= <-]. cbn [fst] in *.
  repeat split; [exact Hs|exact Hk|].
  unfold SerializeAggregatablePayload.
  pose proof (Marshal_valid payload Hs Hk) as Hm.
  destruct (proto.Marshal payload) as [b err]. cbn [snd] in *. now subst err.
Qed.

Lemma Deserialize_result_serializes_witness :
  DeserializeAggregatablePayload "GgJrMRICU0k="
  = (Some {| pb.Payload := None; pb.SharedInfo := "SI"; pb.KeyId := "k1" |}, None)
  /\ snd (SerializeAggregatablePayload
            {| pb.Payload := None; pb.SharedInfo := "SI"; pb.KeyId := "k1" |})
     = None.
Proof.
  split; [reflexivity|].
  exact (proj2 (proj2 (Deserialize_result_serializes "GgJrMRICU0k="
                         {| pb.Payload := None; pb.SharedInfo := "SI";
                            pb.KeyId := "k1" |} eq_refl))).
Defined.

(** *** Line breaks in a transport string *)

Lemma isNewline_decodeMap (c : byte) :
  base64.isNewline c = true ->
  base64.decodeMap c = 255.
Proof. destruct c; try discriminate; reflexivity. Qed.

Lemma stripNewlines_cons (c : byte) (src : list byte) :
  stripNewlines (c :: src)
  = if base64.isNewline c then stripNewlines src else c :: stripNewlines src.
Proof. unfold stripNewlines. cbn [List.filter]. now destruct (base64.isNewline c). Qed.

(** Skipping newlines leaves a rest that does not start with one, and that
    has the same characters apart from newlines. *)
Lemma skipNewlines_strip (src : list byte) :
  forall si,
    stripNewlines (fst (base64.skipNewlines src si)) = stripNewlines src
    /\ match fst (base64.skipNewlines src si) with
       | [] => True
       | c :: _ => base64.isNewline c = false
       end.
Proof.
  induction src as [|c src IH]; intros si; cbn [base64.skipNewlines].
  - split; [reflexivity|exact I].
  - destruct (base64.isNewline c) eqn:E.
    + rewrite stripNewlines_cons, E. apply IH.
    + cbn [fst]. split; [reflexivity|exact E].
Qed.

Lemma skipNewlines_stripNewlines (src : list byte) (si : Z) :
  base64.skipNewlines (stripNewlines src) si = (stripNewlines src, si).
Proof.
  induction src as [|c src IH]; [reflexivity|].
  rewrite stripNewlines_cons. destruct (base64.isNewline c) eqn:E; [exact IH|].
  cbn [base64.skipNewlines]. now rewrite E.
Qed.

Lemma afterPadding_strip (src : list byte) (si si' : Z) (dbuf : list Z) :
  fst (base64.afterPadding src si dbuf)
  = fst (base64.afterPadding (stripNewlines src) si' dbuf)
  /\ (snd (base64.afterPadding src si dbuf) = None
      <-> snd (base64.afterPadding (stripNewlines src) si' dbuf) = None).
Proof.
  unfold base64.afterPadding. rewrite skipNewlines_stripNewlines.
  pose proof (skipNewlines_strip src si) as [Hs Hh].
  destruct (base64.skipNewlines src si) as [[|c rest] si2]; cbn [fst snd] in *.
  - rewrite <- Hs. cbn. tauto.
  - rewrite <- Hs, stripNewlines_cons, Hh. split; [reflexivity|].
    split; discriminate.
Qed.

(** The decoder writes the same bytes, and fails or not alike, on an input
    and on that input without its newline characters. *)
Lemma decodeLoop_strip (src : list byte) :
  forall (si si' : Z) (dbuf : list Z),
    fst (base64.decodeLoop src si dbuf)
    = fst (base64.decodeLoop (stripNewlines src) si' dbuf)
    /\ (snd (base64.decodeLoop src si dbuf) = None
        <-> snd (base64.decodeLoop (stripNewlines src) si' dbuf) = None).
Proof.
  induction src as [|c src IH]; intros si si' dbuf.
  - destruct dbuf; cbn; [tauto|]. split; [reflexivity|]. split; discriminate.
  - rewrite stripNewlines_cons.
    destruct (base64.isNewline c) eqn:En.
    + cbn [base64.decodeLoop]. rewrite (isNewline_decodeMap c En), En.
      cbn [Z.eqb Pos.eqb negb]. apply IH.
    + cbn [base64.decodeLoop]. rewrite En.
      destruct (negb (base64.decodeMap c =? 255)).
      * destruct (length (dbuf ++ [base64.decodeMap c]) =? 4)%nat.
        -- specialize (IH (si + 1) (si' + 1) []).
           destruct (base64.decodeLoop src (si + 1) []) as [d1 e1].
           destruct (base64.decodeLoop (stripNewlines src) (si' + 1) []) as [d2 e2].
           cbn [fst snd] in *. destruct IH as [-> Hsnd]. tauto.
        -- apply IH.
      * destruct (negb (Byte.eqb c base64.padChar)); [cbn; split; [reflexivity|]; split; discriminate|].
        destruct (length dbuf) as [|[|[|n]]].
        -- cbn. split; [reflexivity|]. split; discriminate.
        -- cbn. split; [reflexivity|]. split; discriminate.
        -- rewrite skipNewlines_stripNewlines.
           pose proof (skipNewlines_strip src (si + 1)) as [Hs Hh].
           destruct (base64.skipNewlines src (si + 1)) as [[|c2 src3] si2];
             cbn [fst snd] in *.
           ++ rewrite <- Hs. cbn. split; [reflexivity|]. split; discriminate.
           ++ rewrite <- Hs, stripNewlines_cons, Hh.
              destruct (negb (Byte.eqb c2 base64.padChar));
                [cbn; split; [reflexivity|]; split; discriminate|].
              apply afterPadding_strip.
        -- apply afterPadding_strip.
Qed.

(** X14.  Line breaks in a transport string do not matter to
    [DeserializeAggregatablePayload]: on a line and on the same line without
    its carriage returns and line feeds it returns the same record, and it
    fails on the one exactly when it fails on the other. *)
Theorem Deserialize_ignores_newlines (line : string) :
  let stripped := string_of_list_byte (stripNewlines (list_byte_of_string line)) in
  fst (DeserializeAggregatablePayload line)
  = fst (DeserializeAggregatablePayload stripped)
  /\ (snd (DeserializeAggregatablePayload line) = None
      <-> snd (DeserializeAggregatablePayload stripped) = None).
Proof.
  cbv zeta. unfold DeserializeAggregatablePayload, base64.DecodeString.
  rewrite list_byte_of_string_of_list_byte.
  pose proof (decodeLoop_strip (list_byte_of_string line) 0 0 []) as [Hf Hs].
  destruct (base64.decodeLoop (list_byte_of_string line) 0 []) as [b1 e1].
  destruct (base64.decodeLoop (stripNewlines (list_byte_of_string line)) 0 [])
    as [b2 e2].
  cbn [fst snd] in *. subst b2.
  destruct e1 as [e1|], e2 as [e2|].
  - cbn. split; [reflexivity|]. split; discriminate.
  - exfalso. destruct Hs as [_ Hs]. specialize (Hs eq_refl). discriminate.
  - exfalso. destruct Hs as [Hs _]. specialize (Hs eq_refl). discriminate.
  - tauto.
Qed.

(** A transport string read with its line terminator still deserializes. *)
Example Deserialize_line_with_terminator :
  DeserializeAggregatablePayload
    (String.append "CgMKAQESAlNJGgJrMQ==" (String "013"%char (String "010"%char "")))
  = (Some {| pb.Payload := Some {| pb.Data := [x01] |};
             pb.SharedInfo := "SI"; pb.KeyId := "k1" |}, None).
Proof. reflexivity. Qed.

(** *** Where a decoding error points *)

Lemma skipNewlines_offset (src : list byte) :
  forall si,
    snd (base64.skipNewlines src si)
    + Z.of_nat (length (fst (base64.skipNewlines src si)))
    = si + Z.of_nat (length src)
    /\ si <= snd (base64.skipNewlines src si).
Proof.
  induction src as [|c src IH]; intros si; cbn [base64.skipNewlines].
  - cbn. lia.
  - destruct (base64.isNewline c).
    + specialize (IH (si + 1)). cbn [length]. lia.
    + cbn [fst snd length]. lia.
Qed.

Lemma afterPadding_offset (src : list byte) (si : Z) (dbuf : list Z) (off : Z) :
  0 <= si ->
  snd (base64.afterPadding src si dbuf) = Some (CorruptInputError off) ->
  0 <= off <= si + Z.of_nat (length src).
Proof.
  intros Hsi. unfold base64.afterPadding.
  pose proof (skipNewlines_offset src si) as [Hsum Hle].
  destruct (base64.skipNewlines src si) as [[|c rest] si2]; cbn [fst snd] in *;
    [discriminate|].
  intros [= <-]. cbn [length] in Hsum. lia.
Qed.

(** The offset of a [CorruptInputError] lies within the input. *)
Lemma decodeLoop_offset (src : list byte) :
  forall (si : Z) (dbuf : list Z) (off : Z),
    Z.of_nat (length dbuf) <= si ->
    snd (base64.decodeLoop src si dbuf) = Some (CorruptInputError off) ->
    0 <= off <= si + Z.of_nat (length src).
Proof.
  induction src as [|c src IH]; intros si dbuf off Hd; cbn [base64.decodeLoop].
  - destruct dbuf as [|d dbuf]; cbn [snd]; [discriminate|].
    intros [= <-]. cbn [length] in *. lia.
  - cbn [length].
    destruct (negb (base64.decodeMap c =? 255)).
    + destruct (length (dbuf ++ [base64.decodeMap c]) =? 4)%nat.
      * specialize (IH (si + 1) [] off ltac:(cbn; lia)).
        destruct (base64.decodeLoop src (si + 1) []) as [dst err].
        cbn [snd] in *. intros H. specialize (IH H). lia.
      * intros H. apply IH in H; [lia|].
        rewrite length_app. cbn [length]. lia.
    + destruct (base64.isNewline c).
      { intros H. apply IH in H; lia. }
      destruct (negb (Byte.eqb c base64.padChar));
        [cbn [snd]; intros [= <-]; lia|].
      destruct (length dbuf) as [|[|[|n]]] eqn:El.
      * cbn [snd]. intros [= <-]. lia.
      * cbn [snd]. intros [= <-]. lia.
      * pose proof (skipNewlines_offset src (si + 1)) as [Hsum Hle].
        destruct (base64.skipNewlines src (si + 1)) as [[|c2 src3] si2];
          cbn [fst snd length] in *.
        -- intros [= <-]. lia.
        -- destruct (negb (Byte.eqb c2 base64.padChar)).
           ++ cbn [snd]. intros [= <-]. lia.
           ++ intros H. apply afterPadding_offset in H; lia.
      * intros H. apply afterPadding_offset in H; lia.
Qed.

(** X15.  When the extraction fails, its error is the [CorruptInputError]
    of some payload entry whose selected field does not decode, and the
    offset that the error carries lies within that field. *)
Theorem Extract_error_offset (r : AggregatableReport) (useCleartext : bool)
    (records : list pb.AggregatablePayload) (e : error) :
  ExtractPayloadsFromAggregatableReport r useCleartext = Returns (records, Some e) ->
  exists (p : AggregationServicePayload) (off : Z),
    Some p ∈ AggregationServicePayloads r
    /\ e = CorruptInputError off
    /\ snd (base64.DecodeString (if useCleartext then DebugCleartextPayload p
                                 else Payload p)) = Some e
    /\ 0 <= off
       <= Z.of_nat (String.length (if useCleartext then DebugCleartextPayload p
                                   else Payload p)).
Proof.
  rewrite Extract_spec.
  destruct (firstDecodeError useCleartext (AggregationServicePayloads r))
    as [[e'|]|msg] eqn:Hd; try discriminate.
  intros [= _ ->].
  apply firstDecodeError_Some in Hd as (p & Hin & Hp). unfold selectedField in Hp.
  destruct (DecodeString_error _ _ Hp) as [off ->].
  exists p, off. repeat split; try assumption.
  - unfold base64.DecodeString in Hp.
    apply decodeLoop_offset in Hp; [lia|cbn; lia].
  - unfold base64.DecodeString in Hp.
    apply decodeLoop_offset in Hp; [|cbn; lia].
    rewrite length_list_byte_of_string in Hp. lia.
Qed.

Lemma Extract_error_offset_witness :
  ExtractPayloadsFromAggregatableReport
    (mkReport "SI" [mkPayload "AQ==" "k1" ""; mkPayload "AQ=" "k2" ""]) false
  = Returns ([], Some (CorruptInputError 3))
  /\ exists (p : AggregationServicePayload) (off : Z),
      Some p ∈ AggregationServicePayloads
                 (mkReport "SI" [mkPayload "AQ==" "k1" ""; mkPayload "AQ=" "k2" ""])
      /\ CorruptInputError 3 = CorruptInputError off
      /\ snd (base64.DecodeString (Payload p)) = Some (CorruptInputError 3)
      /\ 0 <= off <= Z.of_nat (String.length (Payload p)).
Proof.
  split; [reflexivity|].
  exact (Extract_error_offset
           (mkReport "SI" [mkPayload "AQ==" "k1" ""; mkPayload "AQ=" "k2" ""])
           false _ (CorruptInputError 3) eq_refl).
Defined.

End MoreReportFacts.
